(** * supportFlow.AI: the conversation store, its cache and the memory facade

    A shallow embedding of [src/memory/cache.py] (class [ConversationCache]),
    [src/database/connection.py] ([DatabaseManager.get_session]),
    [src/models/database_models.py] (the three tables) and
    [src/memory/production_memory.py] (class [ProductionConversationMemory]).

    The cache comes in three modules: [Cache] holds the in-memory fallback,
    the branch of each method that runs when [use_redis] is [False];
    [Redis] the server and the commands the other branch sends;
    [ConversationCache] the methods with both branches.  Module [Memory] is
    the facade over the fallback dicts, and its results are read in that
    scope; module [Deployed] has the methods of the invalidate-on-write
    contract over either cache.

    Conventions of the embedding.
    - A [datetime] is a number of microseconds; every [datetime.now()] and
      every SQL [now()] of one operation reads the instant [now] of the
      environment that operation runs in.
    - [uuid.uuid4()] and the availability of the database are oracles of the
      environment: [uuid4 env k] is the k-th identifier drawn, and
      [db_fault env k] tells whether the k-th round trip to the database
      raises.  Primary keys and the foreign key of [messages] are checked by
      the embedding itself; any other reason the database may have to refuse
      a statement is covered by the fault oracle.
    - Python values of type [Any] (JSON columns, metadata, cached dicts) are
      terms of [json]; the string [t.isoformat()] is kept as [JIso t], and a
      [float] is a double of the kernel.
    - A loaded row is an object of the session: attribute writes reach the
      table at the next flush, and changes made inside a list a JSON column
      holds do not ([flushed]).
    - The link to Redis is an oracle too: [link k] tells whether the k-th
      command the client sends raises [RedisError].
    - A session works on [tx], its own view of the rows; [db] holds what is
      committed.  [trace] is a log of the effects in program order. *)

From Stdlib Require PrimFloat SpecFloat FloatOps.
From stdpp Require Import base numbers list strings gmap sorting.

(** A Python [float] is an IEEE 754 double. *)
Abbreviation float := PrimFloat.float.

Set Warnings "-register-all".

Local Open Scope Z_scope.

(* ================================================================== *)
(** * Python values *)

Definition datetime := Z.

Definition hours (n : Z) : Z := n * 3600 * 1000000.
Definition minutes (n : Z) : Z := n * 60 * 1000000.

Inductive json :=
| JNone
| JBool (b : bool)
| JInt (n : Z)
| JFloat (x : float)
| JStr (s : string)
| JIso (t : datetime)
| JList (l : list json)
| JDict (d : list (string * json)).

(** A Python [dict] with string keys, in insertion order. *)
Abbreviation pydict := (list (string * json)).

Inductive exn :=
| AttributeError
| TypeError
| DataError
| IntegrityError
| OperationalError.

Inductive result (A : Type) :=
| Ok (a : A)
| Raise (e : exn).
Arguments Ok {A} a.
Arguments Raise {A} e.

(** [d.get(k)] as an option, [k in d], and [d.get(k, default)]. *)
Fixpoint dict_lookup (d : pydict) (k : string) : option json :=
  match d with
  | [] => None
  | (k', v) :: d' => if bool_decide (k' = k) then Some v else dict_lookup d' k
  end.

Definition dict_has (d : pydict) (k : string) : bool :=
  match dict_lookup d k with Some _ => true | None => false end.

Definition dict_get (d : pydict) (k : string) (default : json) : json :=
  match dict_lookup d k with Some v => v | None => default end.

(** Truth value of a Python object, as [if x:] and [x or y] test it. *)
Definition truthy (v : json) : bool :=
  match v with
  | JNone => false
  | JBool b => b
  | JInt n => negb (n =? 0)
  | JFloat x => negb (PrimFloat.eqb x PrimFloat.zero)
  | JStr s => negb (bool_decide (s = EmptyString))
  | JIso _ => true
  | JList l => match l with [] => false | _ => true end
  | JDict d => match d with [] => false | _ => true end
  end.

Definition py_or (v default : json) : json := if truthy v then v else default.

(** An integer as the double nearest to it, and [a / b] on integers: the
    double nearest to the quotient ([b] is not 0 where the code divides). *)
Definition exact_int (n : Z) : SpecFloat.spec_float :=
  match n with
  | Z0 => SpecFloat.S754_zero false
  | Zpos p => SpecFloat.S754_finite false p 0
  | Zneg p => SpecFloat.S754_finite true p 0
  end.

Definition int_truediv (a b : Z) : float :=
  FloatOps.SF2Prim (SpecFloat.SFdiv FloatOps.prec FloatOps.emax (exact_int a) (exact_int b)).

Definition float_of_int (n : Z) : float := int_truediv n 1.

(** [l[:limit]]: a negative bound counts from the end of the list. *)
Definition slice_to {A} (limit : Z) (l : list A) : list A :=
  if 0 <=? limit then take (Z.to_nat limit) l
  else take (length l - Z.to_nat (- limit))%nat l.

(** [for x in v]: what a loop over [v] visits.  A list gives its items, a
    dict its keys, a str its characters, which are strs of length one.  The
    text of [JIso] is a str too, and never empty: its characters are not
    spelled out, only that there are some. *)
Inductive iteration :=
| Items (l : list json)
| Characters
| NotIterable.

Definition py_iter (v : json) : iteration :=
  match v with
  | JList l => Items l
  | JDict d => Items (map (λ kv, JStr (fst kv)) d)
  | JStr s => Items (map (λ c, JStr (String c EmptyString)) (String.list_ascii_of_string s))
  | JIso _ => Characters
  | JNone | JBool _ | JInt _ | JFloat _ => NotIterable
  end.

(* ================================================================== *)
(** * cache.py: ConversationCache, the in-memory fallback

    The [else] branches of the methods, which run when [use_redis] is
    [False]; the methods with both branches follow in module
    [ConversationCache]. *)

Module Cache.

(** What [memory_cache] holds under a key: the dict given to
    [set_conversation] or [cache_classification], or the list that
    [add_message] builds. *)
Inductive entry :=
| EDict (d : pydict)
| EList (l : list json).

Record ConversationCache := {
  memory_cache : gmap string entry;
  memory_expiry : gmap string datetime
}.

Definition conversation_ttl : Z := hours 4.
Definition classification_ttl : Z := minutes 30.
Definition articles_ttl : Z := hours 1.

Definition conv_key (conversation_id : string) : string := "conv:" +:+ conversation_id.
Definition messages_key (conversation_id : string) : string := "messages:" +:+ conversation_id.
Definition classification_key (message_hash : string) : string :=
  "classification:" +:+ message_hash.

Definition _init_memory_cache : ConversationCache :=
  {| memory_cache := ∅; memory_expiry := ∅ |}.

Definition _is_expired (c : ConversationCache) (now : datetime) (key : string) : bool :=
  match memory_expiry c !! key with
  | None => true
  | Some expiry => bool_decide (expiry < now)
  end.

(** [self.memory_cache[key]] under the test
    [key in self.memory_cache and not self._is_expired(key)]. *)
Definition live (c : ConversationCache) (now : datetime) (key : string) : option entry :=
  match memory_cache c !! key with
  | Some v => if _is_expired c now key then None else Some v
  | None => None
  end.

Definition get_conversation (c : ConversationCache) (now : datetime)
    (conversation_id : string) : option entry :=
  live c now (conv_key conversation_id).

(** [self.memory_cache[key] = v; self.memory_expiry[key] = expiry] *)
Definition store (c : ConversationCache) (key : string) (v : entry) (expiry : datetime)
    : ConversationCache :=
  {| memory_cache := <[key := v]> (memory_cache c);
     memory_expiry := <[key := expiry]> (memory_expiry c) |}.

Definition set_conversation (c : ConversationCache) (now : datetime)
    (conversation_id : string) (conversation_data : pydict) : ConversationCache :=
  store c (conv_key conversation_id) (EDict conversation_data) (now + conversation_ttl).

(** [None] on a miss; a dict under the key cannot be sliced. *)
Definition get_recent_messages (c : ConversationCache) (now : datetime)
    (conversation_id : string) (limit : Z) : result (option (list json)) :=
  match live c now (messages_key conversation_id) with
  | Some (EList l) => Ok (Some (slice_to limit l))
  | Some (EDict _) => Raise TypeError
  | None => Ok None
  end.

(** The membership test does not look at the expiry: an expired window
    that is still in the dict is extended and gets a new expiry. *)
Definition add_message (c : ConversationCache) (now : datetime)
    (conversation_id : string) (message : pydict) : result ConversationCache :=
  let key := messages_key conversation_id in
  let window :=
    match memory_cache c !! key with
    | None => EList []
    | Some v => v
    end in
  match window with
  | EList l =>
      Ok (store c key (EList (slice_to 50 (JDict message :: l))) (now + conversation_ttl))
  | EDict _ => Raise AttributeError
  end.

Definition cache_classification (c : ConversationCache) (now : datetime)
    (message_hash : string) (classification : pydict) : ConversationCache :=
  store c (classification_key message_hash) (EDict classification) (now + classification_ttl).

Definition get_cached_classification (c : ConversationCache) (now : datetime)
    (message_hash : string) : option entry :=
  live c now (classification_key message_hash).

(** [del memory_cache[key]], and [del memory_expiry[key]] when it is there;
    nothing when the key is not in [memory_cache]. *)
Definition evict (c : ConversationCache) (key : string) : ConversationCache :=
  match memory_cache c !! key with
  | Some _ =>
      {| memory_cache := delete key (memory_cache c);
         memory_expiry := delete key (memory_expiry c) |}
  | None => c
  end.

Definition invalidate_conversation (c : ConversationCache) (conversation_id : string)
    : ConversationCache :=
  evict (evict c (conv_key conversation_id)) (messages_key conversation_id).

Definition clear_cache (c : ConversationCache) : ConversationCache :=
  {| memory_cache := ∅; memory_expiry := ∅ |}.

Definition ping (c : ConversationCache) : bool := true.

(** The list [memory_cache] holds for the messages of a conversation, expired
    or not; empty when there is none. *)
Definition window (c : ConversationCache) (conversation_id : string) : list json :=
  match memory_cache c !! messages_key conversation_id with
  | Some (EList l) => l
  | _ => []
  end.

(** [add_message] called for each message of a list, first to last. *)
Fixpoint add_messages (c : ConversationCache) (now : datetime) (conversation_id : string)
    (messages : list pydict) : result ConversationCache :=
  match messages with
  | [] => Ok c
  | message :: rest =>
      match add_message c now conversation_id message with
      | Ok c' => add_messages c' now conversation_id rest
      | Raise e => Raise e
      end
  end.

(** The caches the methods can build, starting from the empty one. *)
Inductive reachable : ConversationCache → Prop :=
| reach_init : reachable _init_memory_cache
| reach_set_conversation c now id data :
    reachable c → reachable (set_conversation c now id data)
| reach_add_message c now id message c' :
    reachable c → add_message c now id message = Ok c' → reachable c'
| reach_cache_classification c now h cl :
    reachable c → reachable (cache_classification c now h cl)
| reach_invalidate c id :
    reachable c → reachable (invalidate_conversation c id)
| reach_clear c :
    reachable c → reachable (clear_cache c).

(** Every message window holds a list of at most 50 entries. *)
Definition windows_ok (c : ConversationCache) : Prop :=
  ∀ id v, memory_cache c !! messages_key id = Some v →
    ∃ l, v = EList l ∧ (length l ≤ 50)%nat.

End Cache.

(* ================================================================== *)
(** * The Redis server behind [self.redis] *)

Module Redis.

(** What the server holds under a key: a string, written by [SETEX], or a
    list, built by [LPUSH].  The strings the cache writes are the texts
    [json.dumps(d, default=str)] of dicts, and it reads them back with
    [json.loads]; over [json], whose values JSON can all write, the second
    undoes the first, and a text is kept as the dict it encodes. *)
Inductive value :=
| RString (d : pydict)
| RList (l : list pydict).

(** The keys with their values and the instant each expires at, if any, and
    the number of commands the client has sent. *)
Record server := {
  keys : gmap string (value * option datetime);
  commands : nat
}.

Definition empty : server := {| keys := ∅; commands := 0 |}.

(** The answer to a command, or [redis.RedisError]: a connection that is
    down or times out, and the refusal of a command on a key that holds the
    other kind of value. *)
Inductive reply (A : Type) :=
| Reply (a : A)
| RedisError.
Arguments Reply {A} a.
Arguments RedisError {A}.

Definition command (A : Type) : Type := server → reply A * server.

#[global] Instance command_ret : MRet command := λ A a r, (Reply a, r).
#[global] Instance command_bind : MBind command := λ A B f m r,
  match m r with
  | (Reply a, r') => f a r'
  | (RedisError, r') => (RedisError, r')
  end.

(** A key the server has not expired: it goes when its instant is past. *)
Definition live (r : server) (now : datetime) (key : string)
    : option (value * option datetime) :=
  match keys r !! key with
  | Some (v, Some expiry) => if bool_decide (expiry < now) then None else Some (v, Some expiry)
  | Some (v, None) => Some (v, None)
  | None => None
  end.

Definition put (key : string) (v : value) (expiry : option datetime) (r : server) : server :=
  {| keys := <[key := (v, expiry)]> (keys r); commands := commands r |}.

Definition remove (key : string) (r : server) : server :=
  {| keys := delete key (keys r); commands := commands r |}.

Definition bump (r : server) : server := {| keys := keys r; commands := S (commands r) |}.

(** One command on the link.  [link k] tells whether the k-th command of the
    client fails; a command that fails has not reached the server. *)
Definition send {A} (link : nat → bool) (run : command A) : command A := λ r,
  if link (commands r) then (RedisError, bump r) else run (bump r).

(** The elements from index [start] to index [stop], both included, as
    [LRANGE] and [LTRIM] count them: a negative index counts from the end,
    -1 being the last element, and indices out of range are cut. *)
Definition range {A} (start stop : Z) (l : list A) : list A :=
  let n := Z.of_nat (length l) in
  let start := Z.max 0 (if start <? 0 then n + start else start) in
  let stop := if stop <? 0 then n + stop else stop in
  if (stop <? start) || (n <=? start) then []
  else take (Z.to_nat (Z.min stop (n - 1) - start + 1)) (drop (Z.to_nat start) l).

Definition get (link : nat → bool) (now : datetime) (key : string)
    : command (option pydict) :=
  send link (λ r,
    match live r now key with
    | Some (RString d, _) => (Reply (Some d), r)
    | Some (RList _, _) => (RedisError, r)
    | None => (Reply None, r)
    end).

Definition setex (link : nat → bool) (now : datetime) (key : string) (ttl : Z)
    (d : pydict) : command unit :=
  send link (λ r, (Reply tt, put key (RString d) (Some (now + ttl)) r)).

Definition del (link : nat → bool) (key : string) : command unit :=
  send link (λ r, (Reply tt, remove key r)).

Definition lrange (link : nat → bool) (now : datetime) (key : string) (start stop : Z)
    : command (list pydict) :=
  send link (λ r,
    match live r now key with
    | Some (RList l, _) => (Reply (range start stop l), r)
    | Some (RString _, _) => (RedisError, r)
    | None => (Reply [], r)
    end).

(** A list is created by its first push, with no expiry. *)
Definition lpush (link : nat → bool) (now : datetime) (key : string) (d : pydict)
    : command unit :=
  send link (λ r,
    match live r now key with
    | Some (RList l, expiry) => (Reply tt, put key (RList (d :: l)) expiry r)
    | Some (RString _, _) => (RedisError, r)
    | None => (Reply tt, put key (RList [d]) None r)
    end).

(** A list that is trimmed to nothing is removed. *)
Definition ltrim (link : nat → bool) (now : datetime) (key : string) (start stop : Z)
    : command unit :=
  send link (λ r,
    match live r now key with
    | Some (RList l, expiry) =>
        match range start stop l with
        | [] => (Reply tt, remove key r)
        | l' => (Reply tt, put key (RList l') expiry r)
        end
    | Some (RString _, _) => (RedisError, r)
    | None => (Reply tt, r)
    end).

Definition expire (link : nat → bool) (now : datetime) (key : string) (ttl : Z)
    : command unit :=
  send link (λ r,
    match live r now key with
    | Some (v, _) => (Reply tt, put key v (Some (now + ttl)) r)
    | None => (Reply tt, r)
    end).

Definition flushdb (link : nat → bool) : command unit :=
  send link (λ r, (Reply tt, {| keys := ∅; commands := commands r |})).

Definition ping (link : nat → bool) : command bool :=
  send link (λ r, (Reply true, r)).

(** Every list of the server holds at most 50 entries. *)
Definition lists_ok (r : server) : Prop :=
  ∀ key l expiry, keys r !! key = Some (RList l, expiry) → (length l ≤ 50)%nat.

End Redis.

(* ================================================================== *)
(** * cache.py: ConversationCache, the methods with both branches *)

Module ConversationCache.

(** The attributes of the object: [self.redis] when [use_redis] holds, and
    the two dicts of the fallback, which the methods leave alone then. *)
Record instance := {
  redis : option Redis.server;
  memory : Cache.ConversationCache
}.

Definition use_redis (c : instance) : bool :=
  match redis c with Some _ => true | None => false end.

(** [__init__]: Redis when the package is installed and the server answers
    the ping, the dicts otherwise.  The server is taken empty. *)
Definition __init__ (redis_available : bool) (link : nat → bool) : instance :=
  if redis_available then
    match Redis.ping link Redis.empty with
    | (Redis.Reply _, r) => {| redis := Some r; memory := Cache._init_memory_cache |}
    | (Redis.RedisError, _) => {| redis := None; memory := Cache._init_memory_cache |}
    end
  else {| redis := None; memory := Cache._init_memory_cache |}.

Definition with_redis (c : instance) (r : Redis.server) : instance :=
  {| redis := Some r; memory := memory c |}.

Definition with_memory (c : instance) (m : Cache.ConversationCache) : instance :=
  {| redis := redis c; memory := m |}.

(** Each method runs its Redis commands in a [try] block that catches
    [RedisError] and prints it: the commands after the one that failed are
    not sent, and the method goes on as if nothing was found or nothing was
    to be done. *)
Definition get_conversation (link : nat → bool) (now : datetime) (conversation_id : string)
    (c : instance) : option Cache.entry * instance :=
  match redis c with
  | Some r =>
      match Redis.get link now (Cache.conv_key conversation_id) r with
      | (Redis.Reply (Some cached_data), r') => (Some (Cache.EDict cached_data), with_redis c r')
      | (_, r') => (None, with_redis c r')
      end
  | None => (Cache.get_conversation (memory c) now conversation_id, c)
  end.

Definition set_conversation (link : nat → bool) (now : datetime) (conversation_id : string)
    (conversation_data : pydict) (c : instance) : instance :=
  match redis c with
  | Some r =>
      with_redis c
        (snd (Redis.setex link now (Cache.conv_key conversation_id) Cache.conversation_ttl
                conversation_data r))
  | None => with_memory c (Cache.set_conversation (memory c) now conversation_id conversation_data)
  end.

(** On Redis the window is read with [LRANGE key 0 limit-1]: an empty list,
    not [None], when the key is not there. *)
Definition get_recent_messages (link : nat → bool) (now : datetime)
    (conversation_id : string) (limit : Z) (c : instance)
    : result (option (list json)) * instance :=
  match redis c with
  | Some r =>
      match Redis.lrange link now (Cache.messages_key conversation_id) 0 (limit - 1) r with
      | (Redis.Reply messages, r') => (Ok (Some (map JDict messages)), with_redis c r')
      | (Redis.RedisError, r') => (Ok None, with_redis c r')
      end
  | None => (Cache.get_recent_messages (memory c) now conversation_id limit, c)
  end.

Definition add_message (link : nat → bool) (now : datetime) (conversation_id : string)
    (message : pydict) (c : instance) : result instance :=
  match redis c with
  | Some r =>
      let key := Cache.messages_key conversation_id in
      Ok (with_redis c
            (snd ((Redis.lpush link now key message ;;
                   Redis.ltrim link now key 0 49 ;;
                   Redis.expire link now key Cache.conversation_ttl) r)))
  | None =>
      match Cache.add_message (memory c) now conversation_id message with
      | Ok m => Ok (with_memory c m)
      | Raise e => Raise e
      end
  end.

Definition cache_classification (link : nat → bool) (now : datetime) (message_hash : string)
    (classification : pydict) (c : instance) : instance :=
  match redis c with
  | Some r =>
      with_redis c
        (snd (Redis.setex link now (Cache.classification_key message_hash)
                Cache.classification_ttl classification r))
  | None =>
      with_memory c (Cache.cache_classification (memory c) now message_hash classification)
  end.

Definition get_cached_classification (link : nat → bool) (now : datetime)
    (message_hash : string) (c : instance) : option Cache.entry * instance :=
  match redis c with
  | Some r =>
      match Redis.get link now (Cache.classification_key message_hash) r with
      | (Redis.Reply (Some cached), r') => (Some (Cache.EDict cached), with_redis c r')
      | (_, r') => (None, with_redis c r')
      end
  | None => (Cache.get_cached_classification (memory c) now message_hash, c)
  end.

Definition invalidate_conversation (link : nat → bool) (conversation_id : string)
    (c : instance) : instance :=
  match redis c with
  | Some r =>
      with_redis c
        (snd ((Redis.del link (Cache.conv_key conversation_id) ;;
               Redis.del link (Cache.messages_key conversation_id)) r))
  | None => with_memory c (Cache.invalidate_conversation (memory c) conversation_id)
  end.

Definition clear_cache (link : nat → bool) (c : instance) : instance :=
  match redis c with
  | Some r => with_redis c (snd (Redis.flushdb link r))
  | None => with_memory c (Cache.clear_cache (memory c))
  end.

(** [ping] does not catch the error of the link. *)
Definition ping (link : nat → bool) (c : instance) : Redis.reply bool * instance :=
  match redis c with
  | Some r => let '(answer, r') := Redis.ping link r in (answer, with_redis c r')
  | None => (Redis.Reply true, c)
  end.

(** The objects the methods can build from a new one, over a given link. *)
Inductive reachable (link : nat → bool) : instance → Prop :=
| reach_init redis_available : reachable link (__init__ redis_available link)
| reach_get_conversation c now id :
    reachable link c → reachable link (snd (get_conversation link now id c))
| reach_set_conversation c now id data :
    reachable link c → reachable link (set_conversation link now id data c)
| reach_get_recent_messages c now id limit :
    reachable link c → reachable link (snd (get_recent_messages link now id limit c))
| reach_add_message c now id message c' :
    reachable link c → add_message link now id message c = Ok c' → reachable link c'
| reach_cache_classification c now h classification :
    reachable link c → reachable link (cache_classification link now h classification c)
| reach_get_cached_classification c now h :
    reachable link c → reachable link (snd (get_cached_classification link now h c))
| reach_invalidate c id :
    reachable link c → reachable link (invalidate_conversation link id c)
| reach_clear c :
    reachable link c → reachable link (clear_cache link c)
| reach_ping c :
    reachable link c → reachable link (snd (ping link c)).

End ConversationCache.

(* ================================================================== *)
(** * database_models.py: the three tables of schema [support] *)

Module ConversationDB.
Record row := {
  conversation_id : string;
  customer_id : string;
  status : string;
  priority : json;
  category : json;
  message_count : Z;
  escalated : json;
  human_agent_id : option string;
  customer_context : json;
  classification_history : json;
  articles_referenced : json;
  created_at : datetime;
  updated_at : datetime;
  resolved_at : option datetime
}.
End ConversationDB.

Module MessageDB.
Record row := {
  id : string;
  conversation_id : string;
  role : string;
  content : string;
  classification_result : json;
  tools_used : json;
  processing_time_ms : json;
  created_at : datetime
}.
End MessageDB.

Module KnowledgeBaseUsageDB.
Record row := {
  id : string;
  conversation_id : string;
  article_id : json;
  article_title : json;
  relevance_score : json;
  was_helpful : option bool;
  created_at : datetime
}.
End KnowledgeBaseUsageDB.

Record Database := {
  conversations : list ConversationDB.row;
  messages : list MessageDB.row;
  kb_usages : list KnowledgeBaseUsageDB.row
}.

(** A row of [conversations], of [messages], with this primary key. *)
Definition has_conversation (d : Database) (cid : string) : bool :=
  existsb (λ c, bool_decide (ConversationDB.conversation_id c = cid)) (conversations d).

Definition has_message (d : Database) (mid : string) : bool :=
  existsb (λ m, bool_decide (MessageDB.id m = mid)) (messages d).

(** [filter_by(conversation_id=cid).first()] *)
Definition find_conversation (d : Database) (cid : string) : option ConversationDB.row :=
  find (λ c, bool_decide (ConversationDB.conversation_id c = cid)) (conversations d).

(** The rows of [messages] whose foreign key is [cid]. *)
Definition messages_of (d : Database) (cid : string) : list MessageDB.row :=
  filter (λ m, MessageDB.conversation_id m = cid) (messages d).

(** The row of the loaded object, with the object's attributes written back. *)
Fixpoint replace_conversation (c : ConversationDB.row) (l : list ConversationDB.row)
    : list ConversationDB.row :=
  match l with
  | [] => []
  | x :: l' =>
      if bool_decide (ConversationDB.conversation_id x = ConversationDB.conversation_id c)
      then c :: l'
      else x :: replace_conversation c l'
  end.

(* ================================================================== *)
(** * connection.py: sessions and their transactions *)

Record environment := {
  now : datetime;
  uuid4 : nat → string;
  db_fault : nat → bool
}.

Inductive event :=
| EvInsertConversation (conversation_id : string)
| EvInsertMessage (conversation_id role content : string)
| EvCacheAddMessage (conversation_id role content : string)
| EvCacheSetConversation (conversation_id : string)
| EvCacheInvalidate (conversation_id : string)
| EvCommit
| EvRollback.

Record state := {
  db : Database;
  tx : Database;
  cache : Cache.ConversationCache;
  round_trips : nat;
  uuids_drawn : nat;
  trace : list event
}.

Definition set_db (d : Database) (s : state) : state :=
  {| db := d; tx := tx s; cache := cache s; round_trips := round_trips s;
     uuids_drawn := uuids_drawn s; trace := trace s |}.
Definition set_tx (d : Database) (s : state) : state :=
  {| db := db s; tx := d; cache := cache s; round_trips := round_trips s;
     uuids_drawn := uuids_drawn s; trace := trace s |}.
Definition set_cache (c : Cache.ConversationCache) (s : state) : state :=
  {| db := db s; tx := tx s; cache := c; round_trips := round_trips s;
     uuids_drawn := uuids_drawn s; trace := trace s |}.
Definition log (e : event) (s : state) : state :=
  {| db := db s; tx := tx s; cache := cache s; round_trips := round_trips s;
     uuids_drawn := uuids_drawn s; trace := trace s ++ [e] |}.

(** Computations that read and write the state and may raise. *)
Definition M (A : Type) : Type := state → result A * state.

#[global] Instance M_ret : MRet M := λ A a s, (Ok a, s).
#[global] Instance M_bind : MBind M := λ A B f m s,
  match m s with
  | (Ok a, s') => f a s'
  | (Raise e, s') => (Raise e, s')
  end.

Definition raise {A} (e : exn) : M A := λ s, (Raise e, s).
Definition get_state : M state := λ s, (Ok s, s).
Definition modify (f : state → state) : M unit := λ s, (Ok tt, f s).

(** One statement sent to the database. *)
Definition round_trip (env : environment) : M unit := λ s,
  let s' := {| db := db s; tx := tx s; cache := cache s;
               round_trips := S (round_trips s);
               uuids_drawn := uuids_drawn s; trace := trace s |} in
  if db_fault env (round_trips s) then (Raise OperationalError, s') else (Ok tt, s').

(** [str(uuid.uuid4())] *)
Definition uuid (env : environment) : M string := λ s,
  (Ok (uuid4 env (uuids_drawn s)),
   {| db := db s; tx := tx s; cache := cache s; round_trips := round_trips s;
      uuids_drawn := S (uuids_drawn s); trace := trace s |}).

(** [session.add(conversation); session.flush()]: the INSERT is sent, and
    refused when the primary key is taken. *)
Definition flush_conversation (env : environment) (c : ConversationDB.row) : M unit :=
  round_trip env ;;
  s ← get_state;
  if has_conversation (tx s) (ConversationDB.conversation_id c) then raise IntegrityError
  else
    modify (λ s, log (EvInsertConversation (ConversationDB.conversation_id c))
      (set_tx {| conversations := conversations (tx s) ++ [c];
                 messages := messages (tx s);
                 kb_usages := kb_usages (tx s) |} s)).

(** [session.add(message); session.flush()]: refused when the primary key is
    taken or the conversation the foreign key names is missing. *)
Definition flush_message (env : environment) (m : MessageDB.row) : M unit :=
  round_trip env ;;
  s ← get_state;
  if has_message (tx s) (MessageDB.id m) then raise IntegrityError
  else if negb (has_conversation (tx s) (MessageDB.conversation_id m)) then raise IntegrityError
  else
    modify (λ s, log (EvInsertMessage (MessageDB.conversation_id m) (MessageDB.role m)
                        (MessageDB.content m))
      (set_tx {| conversations := conversations (tx s);
                 messages := messages (tx s) ++ [m];
                 kb_usages := kb_usages (tx s) |} s)).

(** Attribute writes on a loaded conversation: they reach the table with the
    next flush, which the commit performs. *)
Definition write_conversation (c : ConversationDB.row) : M unit :=
  modify (λ s, set_tx {| conversations := replace_conversation c (conversations (tx s));
                         messages := messages (tx s);
                         kb_usages := kb_usages (tx s) |} s).

(** [session.add(usage)] *)
Definition add_usage (u : KnowledgeBaseUsageDB.row) : M unit :=
  modify (λ s, set_tx {| conversations := conversations (tx s);
                         messages := messages (tx s);
                         kb_usages := kb_usages (tx s) ++ [u] |} s).

(** [with self.db_manager.get_session() as session: body]: the body runs on
    the session's view; leaving the block commits, and an exception from the
    body or from the commit rolls back and is raised again. *)
Definition get_session {A} (env : environment) (body : M A) : M A := λ s,
  match body (set_tx (db s) s) with
  | (Ok a, s1) =>
      match round_trip env s1 with
      | (Ok _, s2) => (Ok a, log EvCommit (set_db (tx s2) s2))
      | (Raise e, s2) => (Raise e, log EvRollback (set_tx (db s2) s2))
      end
  | (Raise e, s1) => (Raise e, log EvRollback (set_tx (db s1) s1))
  end.

(* ================================================================== *)
(** * production_memory.py: ProductionConversationMemory *)

Module Memory.

(** The cache calls of the facade, run on the cache of the state. *)
Definition cache_add_message (env : environment) (conversation_id role content : string)
    (message : pydict) : M unit := λ s,
  match Cache.add_message (cache s) (now env) conversation_id message with
  | Ok c => (Ok tt, log (EvCacheAddMessage conversation_id role content) (set_cache c s))
  | Raise e => (Raise e, s)
  end.

Definition cache_set_conversation (env : environment) (conversation_id : string)
    (context : pydict) : M unit :=
  modify (λ s, log (EvCacheSetConversation conversation_id)
    (set_cache (Cache.set_conversation (cache s) (now env) conversation_id context) s)).

Definition cache_invalidate_conversation (conversation_id : string) : M unit :=
  modify (λ s, log (EvCacheInvalidate conversation_id)
    (set_cache (Cache.invalidate_conversation (cache s) conversation_id) s)).

(** [metadata or {}] and [x if metadata else y] for an optional dict. *)
Definition or_empty (metadata : option pydict) : pydict :=
  match metadata with Some d => d | None => [] end.

Definition given (metadata : option pydict) : bool :=
  match metadata with Some (_ :: _) => true | _ => false end.

Definition message_dict (role content : string) (timestamp : datetime) (metadata : pydict)
    : pydict :=
  [("role", JStr role); ("content", JStr content);
   ("timestamp", JIso timestamp); ("metadata", JDict metadata)].

(** [MessageDB(conversation_id=..., role=..., content=..., ...)], with the
    identifier and the timestamp the insert gives it. *)
Definition new_message (env : environment) (conversation_id role content : string)
    (metadata : option pydict) (mid : string) : MessageDB.row :=
  {| MessageDB.id := mid;
     MessageDB.conversation_id := conversation_id;
     MessageDB.role := role;
     MessageDB.content := content;
     MessageDB.classification_result :=
       if given metadata then dict_get (or_empty metadata) "classification" JNone
       else JNone;
     MessageDB.tools_used :=
       if given metadata then dict_get (or_empty metadata) "tools_used" (JList [])
       else JList [];
     MessageDB.processing_time_ms :=
       if given metadata then dict_get (or_empty metadata) "processing_time_ms" JNone
       else JNone;
     MessageDB.created_at := now env |}.

Definition _add_message (env : environment) (conversation_id role content : string)
    (metadata : option pydict) : M MessageDB.row :=
  mid ← uuid env;
  let message := new_message env conversation_id role content metadata mid in
  flush_message env message ;;
  cache_add_message env conversation_id role content
    (message_dict role content (MessageDB.created_at message) (or_empty metadata)) ;;
  mret message.

Definition _cache_conversation (env : environment) (conversation : ConversationDB.row)
    : M unit :=
  cache_set_conversation env (ConversationDB.conversation_id conversation)
    [("conversation_id", JStr (ConversationDB.conversation_id conversation));
     ("customer_id", JStr (ConversationDB.customer_id conversation));
     ("status", JStr (ConversationDB.status conversation));
     ("priority", ConversationDB.priority conversation);
     ("category", ConversationDB.category conversation);
     ("message_count", JInt (ConversationDB.message_count conversation));
     ("escalated", ConversationDB.escalated conversation);
     ("customer_context", ConversationDB.customer_context conversation);
     ("classification_history",
        py_or (ConversationDB.classification_history conversation) (JList []));
     ("articles_referenced",
        py_or (ConversationDB.articles_referenced conversation) (JList []))].

(** The filter of the continuity query. *)
Definition recent_active (env : environment) (customer_id : string)
    (c : ConversationDB.row) : bool :=
  bool_decide (ConversationDB.customer_id c = customer_id)
  && (bool_decide (ConversationDB.status c = "open")
      || bool_decide (ConversationDB.status c = "in_progress"))
  && bool_decide (now env - hours 4 < ConversationDB.updated_at c).

(** [order_by(desc(updated_at)).first()]: a row with the greatest
    [updated_at]; among equal ones the earliest of the table. *)
Fixpoint latest_updated (l : list ConversationDB.row) : option ConversationDB.row :=
  match l with
  | [] => None
  | c :: l' =>
      match latest_updated l' with
      | Some c' =>
          if bool_decide (ConversationDB.updated_at c < ConversationDB.updated_at c')
          then Some c' else Some c
      | None => Some c
      end
  end.

Definition start_or_get_conversation (env : environment) (customer_id initial_message : string)
    (customer_context : option pydict) : M string :=
  get_session env (
    round_trip env ;;
    s ← get_state;
    match latest_updated (List.filter (recent_active env customer_id) (conversations (tx s))) with
    | Some recent_conversation =>
        let conversation_id := ConversationDB.conversation_id recent_conversation in
        _add_message env conversation_id "user" initial_message None ;;
        mret conversation_id
    | None =>
        cid ← uuid env;
        let new_conversation :=
          {| ConversationDB.conversation_id := cid;
             ConversationDB.customer_id := customer_id;
             ConversationDB.status := "open";
             ConversationDB.priority := JNone;
             ConversationDB.category := JNone;
             ConversationDB.message_count := 1;
             ConversationDB.escalated := JBool false;
             ConversationDB.human_agent_id := None;
             ConversationDB.customer_context := JDict (or_empty customer_context);
             ConversationDB.classification_history := JList [];
             ConversationDB.articles_referenced := JList [];
             ConversationDB.created_at := now env;
             ConversationDB.updated_at := now env;
             ConversationDB.resolved_at := None |} in
        flush_conversation env new_conversation ;;
        _add_message env cid "user" initial_message None ;;
        _cache_conversation env new_conversation ;;
        mret cid
    end).

(** [classification_history.append(entry)], after an empty or missing
    history was replaced by a new list: the list the loaded object holds in
    memory.  What of it reaches the table is told by [flushed] below. *)
Definition append_history (history entry : json) : result json :=
  match (if truthy history then history else JList []) with
  | JList l => Ok (JList (l ++ [entry]))
  | _ => Raise AttributeError
  end.

(** One turn of the loop of [_track_kb_usage]. *)
Definition track_article (env : environment) (conversation_id : string) (article : json)
    : M unit :=
  match article with
  | JDict a =>
      uid ← uuid env;
      add_usage
        {| KnowledgeBaseUsageDB.id := uid;
           KnowledgeBaseUsageDB.conversation_id := conversation_id;
           KnowledgeBaseUsageDB.article_id := dict_get a "id" (JStr "unknown");
           KnowledgeBaseUsageDB.article_title := dict_get a "title" (JStr EmptyString);
           KnowledgeBaseUsageDB.relevance_score := dict_get a "relevance_score" (JInt 0);
           KnowledgeBaseUsageDB.was_helpful := None;
           KnowledgeBaseUsageDB.created_at := now env |}
  | _ => raise AttributeError
  end.

(** The loop stops at the first item that has no [get]: any item that is
    not a dict, the first character of a str among them. *)
Definition _track_kb_usage (env : environment) (conversation_id : string) (articles : json)
    : M unit :=
  match py_iter articles with
  | NotIterable => raise TypeError
  | Characters => raise AttributeError
  | Items items =>
      foldr (λ article (rest : M unit), track_article env conversation_id article ;; rest)
        (mret tt) items
  end.

(** The loaded object after the attribute writes of [add_interaction], as
    the session holds it in memory and as [_cache_conversation] reads it. *)
Definition interaction_update (env : environment) (metadata : option pydict)
    (conversation : ConversationDB.row) : result ConversationDB.row :=
  let counted (history priority category escalated : json) :=
    {| ConversationDB.conversation_id := ConversationDB.conversation_id conversation;
       ConversationDB.customer_id := ConversationDB.customer_id conversation;
       ConversationDB.status := ConversationDB.status conversation;
       ConversationDB.priority := priority;
       ConversationDB.category := category;
       ConversationDB.message_count := ConversationDB.message_count conversation + 2;
       ConversationDB.escalated := escalated;
       ConversationDB.human_agent_id := ConversationDB.human_agent_id conversation;
       ConversationDB.customer_context := ConversationDB.customer_context conversation;
       ConversationDB.classification_history := history;
       ConversationDB.articles_referenced := ConversationDB.articles_referenced conversation;
       ConversationDB.created_at := ConversationDB.created_at conversation;
       ConversationDB.updated_at := now env;
       ConversationDB.resolved_at := ConversationDB.resolved_at conversation |} in
  if given metadata && dict_has (or_empty metadata) "classification" then
    let classification := dict_get (or_empty metadata) "classification" JNone in
    match append_history (ConversationDB.classification_history conversation)
            (JDict [("timestamp", JIso (now env)); ("classification", classification)]) with
    | Raise e => Raise e
    | Ok history =>
        match classification with
        | JDict cl =>
            Ok (counted history (dict_get cl "priority" JNone) (dict_get cl "category" JNone)
                  (dict_get cl "requires_human_escalation" (JBool false)))
        | _ =>
            Ok (counted history (ConversationDB.priority conversation)
                  (ConversationDB.category conversation)
                  (ConversationDB.escalated conversation))
        end
    end
  else
    Ok (counted (ConversationDB.classification_history conversation)
          (ConversationDB.priority conversation)
          (ConversationDB.category conversation)
          (ConversationDB.escalated conversation)).

(** What the session writes back of that object.  The UPDATE carries the
    attributes that were assigned.  [classification_history] is a plain
    [JSON] column: it is assigned when the history was empty or [None], and
    the list assigned is written as it is at the flush, the new entry
    included; a list that was already there is extended in place, which the
    session does not see, so the column keeps what it held. *)
Definition flushed (loaded updated : ConversationDB.row) : ConversationDB.row :=
  {| ConversationDB.conversation_id := ConversationDB.conversation_id updated;
     ConversationDB.customer_id := ConversationDB.customer_id updated;
     ConversationDB.status := ConversationDB.status updated;
     ConversationDB.priority := ConversationDB.priority updated;
     ConversationDB.category := ConversationDB.category updated;
     ConversationDB.message_count := ConversationDB.message_count updated;
     ConversationDB.escalated := ConversationDB.escalated updated;
     ConversationDB.human_agent_id := ConversationDB.human_agent_id updated;
     ConversationDB.customer_context := ConversationDB.customer_context updated;
     ConversationDB.classification_history :=
       if truthy (ConversationDB.classification_history loaded)
       then ConversationDB.classification_history loaded
       else ConversationDB.classification_history updated;
     ConversationDB.articles_referenced := ConversationDB.articles_referenced updated;
     ConversationDB.created_at := ConversationDB.created_at updated;
     ConversationDB.updated_at := ConversationDB.updated_at updated;
     ConversationDB.resolved_at := ConversationDB.resolved_at updated |}.

Definition add_interaction (env : environment) (conversation_id user_message agent_response : string)
    (metadata : option pydict) : M unit :=
  get_session env (
    user_msg ← _add_message env conversation_id "user" user_message None;
    agent_msg ← _add_message env conversation_id "assistant" agent_response metadata;
    round_trip env ;;
    s ← get_state;
    match find_conversation (tx s) conversation_id with
    | Some conversation =>
        match interaction_update env metadata conversation with
        | Raise e => raise e
        | Ok conversation' =>
            write_conversation (flushed conversation conversation') ;;
            (if given metadata && dict_has (or_empty metadata) "articles_used"
             then _track_kb_usage env conversation_id
                    (dict_get (or_empty metadata) "articles_used" JNone)
             else mret tt) ;;
            _cache_conversation env conversation'
        end
    | None => mret tt
    end).

(** [order_by(MessageDB.created_at)]: ascending; rows of the same instant
    stay in the order of the table. *)
Fixpoint insert_by_created_at (m : MessageDB.row) (l : list MessageDB.row)
    : list MessageDB.row :=
  match l with
  | [] => [m]
  | x :: l' =>
      if bool_decide (MessageDB.created_at m ≤ MessageDB.created_at x)
      then m :: x :: l'
      else x :: insert_by_created_at m l'
  end.

Definition order_by_created_at (l : list MessageDB.row) : list MessageDB.row :=
  foldr insert_by_created_at [] l.

Definition history_dict (msg : MessageDB.row) : pydict :=
  [("role", JStr (MessageDB.role msg));
   ("content", JStr (MessageDB.content msg));
   ("timestamp", JIso (MessageDB.created_at msg));
   ("metadata", JDict
      [("classification_result", MessageDB.classification_result msg);
       ("tools_used", MessageDB.tools_used msg);
       ("processing_time_ms", MessageDB.processing_time_ms msg)])].

(** A negative [LIMIT] is refused by the database. *)
Definition get_conversation_history (env : environment) (conversation_id : string)
    (limit : Z) : M (list json) :=
  s ← get_state;
  match Cache.get_recent_messages (cache s) (now env) conversation_id limit with
  | Raise e => raise e
  | Ok (Some (m :: cached_messages)) => mret (m :: cached_messages)
  | Ok _ =>
      get_session env (
        round_trip env ;;
        if limit <? 0 then raise DataError
        else
          s ← get_state;
          let messages :=
            take (Z.to_nat limit) (order_by_created_at (messages_of (tx s) conversation_id)) in
          foldr (λ msg (rest : M unit),
            cache_add_message env conversation_id (MessageDB.role msg) (MessageDB.content msg)
              (history_dict msg) ;;
            rest) (mret tt) messages ;;
          mret (map (λ msg, JDict (history_dict msg)) messages))
  end.

(** [(updated_at - created_at).total_seconds() / 60]: [total_seconds] is the
    number of microseconds divided by [10**6], a division of integers that
    Python rounds once, to the nearest double; the division by 60 is one of
    doubles. *)
Definition duration_minutes (c : ConversationDB.row) : float :=
  PrimFloat.div
    (int_truediv (ConversationDB.updated_at c - ConversationDB.created_at c) 1000000)
    (float_of_int 60).
Arguments duration_minutes : simpl never.

Definition context_dict (conversation : ConversationDB.row) : pydict :=
  [("conversation_id", JStr (ConversationDB.conversation_id conversation));
   ("customer_id", JStr (ConversationDB.customer_id conversation));
   ("status", JStr (ConversationDB.status conversation));
   ("priority", ConversationDB.priority conversation);
   ("category", ConversationDB.category conversation);
   ("message_count", JInt (ConversationDB.message_count conversation));
   ("escalated", ConversationDB.escalated conversation);
   ("customer_context", ConversationDB.customer_context conversation);
   ("classification_history",
      py_or (ConversationDB.classification_history conversation) (JList []));
   ("articles_referenced",
      py_or (ConversationDB.articles_referenced conversation) (JList []));
   ("created_at", JIso (ConversationDB.created_at conversation));
   ("updated_at", JIso (ConversationDB.updated_at conversation));
   ("duration_minutes", JFloat (duration_minutes conversation))].

Definition entry_truthy (v : Cache.entry) : bool :=
  match v with
  | Cache.EDict d => truthy (JDict d)
  | Cache.EList l => truthy (JList l)
  end.

(** The block under [# Get from database] of [get_conversation_context]. *)
Definition context_from_database (env : environment) (conversation_id : string)
    : M (option Cache.entry) :=
  get_session env (
    round_trip env ;;
    s ← get_state;
    match find_conversation (tx s) conversation_id with
    | None => mret None
    | Some conversation =>
        let context := context_dict conversation in
        cache_set_conversation env conversation_id context ;;
        mret (Some (Cache.EDict context))
    end).

Definition get_conversation_context (env : environment) (conversation_id : string)
    : M (option Cache.entry) :=
  s ← get_state;
  match Cache.get_conversation (cache s) (now env) conversation_id with
  | Some cached_context =>
      if entry_truthy cached_context then mret (Some cached_context)
      else context_from_database env conversation_id
  | None => context_from_database env conversation_id
  end.

(** The conversation after the attribute writes of
    [update_conversation_status]. *)
Definition status_update (env : environment) (status : string)
    (human_agent_id : option string) (conversation : ConversationDB.row)
    : ConversationDB.row :=
  {| ConversationDB.conversation_id := ConversationDB.conversation_id conversation;
     ConversationDB.customer_id := ConversationDB.customer_id conversation;
     ConversationDB.status := status;
     ConversationDB.priority := ConversationDB.priority conversation;
     ConversationDB.category := ConversationDB.category conversation;
     ConversationDB.message_count := ConversationDB.message_count conversation;
     ConversationDB.escalated :=
       if bool_decide (status = "escalated") then JBool true
       else ConversationDB.escalated conversation;
     ConversationDB.human_agent_id :=
       if bool_decide (status = "escalated") then human_agent_id
       else ConversationDB.human_agent_id conversation;
     ConversationDB.customer_context := ConversationDB.customer_context conversation;
     ConversationDB.classification_history := ConversationDB.classification_history conversation;
     ConversationDB.articles_referenced := ConversationDB.articles_referenced conversation;
     ConversationDB.created_at := ConversationDB.created_at conversation;
     ConversationDB.updated_at := now env;
     ConversationDB.resolved_at :=
       if bool_decide (status = "resolved") then Some (now env)
       else ConversationDB.resolved_at conversation |}.

Definition update_conversation_status (env : environment) (conversation_id status : string)
    (human_agent_id : option string) : M unit :=
  get_session env (
    round_trip env ;;
    s ← get_state;
    match find_conversation (tx s) conversation_id with
    | Some conversation =>
        write_conversation (status_update env status human_agent_id conversation) ;;
        cache_invalidate_conversation conversation_id
    | None => mret tt
    end).

(** [order_by(desc(ConversationDB.created_at))]: descending; rows of the same
    instant stay in the order of the table. *)
Fixpoint insert_by_created_at_desc (c : ConversationDB.row) (l : list ConversationDB.row)
    : list ConversationDB.row :=
  match l with
  | [] => [c]
  | x :: l' =>
      if bool_decide (ConversationDB.created_at x ≤ ConversationDB.created_at c)
      then c :: x :: l'
      else x :: insert_by_created_at_desc c l'
  end.

Definition order_by_created_at_desc (l : list ConversationDB.row) : list ConversationDB.row :=
  foldr insert_by_created_at_desc [] l.

Definition summary_dict (conv : ConversationDB.row) : pydict :=
  [("conversation_id", JStr (ConversationDB.conversation_id conv));
   ("status", JStr (ConversationDB.status conv));
   ("category", ConversationDB.category conv);
   ("priority", ConversationDB.priority conv);
   ("message_count", JInt (ConversationDB.message_count conv));
   ("created_at", JIso (ConversationDB.created_at conv));
   ("resolved_at",
      match ConversationDB.resolved_at conv with Some t => JIso t | None => JNone end)].

(** The rows of a customer, as the query of
    [get_customer_conversation_history] selects them. *)
Definition conversations_of (d : Database) (customer_id : string) : list ConversationDB.row :=
  filter (λ c, ConversationDB.customer_id c = customer_id) (conversations d).

Definition get_customer_conversation_history (env : environment) (customer_id : string)
    (limit : Z) : M (list pydict) :=
  get_session env (
    round_trip env ;;
    if limit <? 0 then raise DataError
    else
      s ← get_state;
      mret (map summary_dict
              (take (Z.to_nat limit)
                 (order_by_created_at_desc (conversations_of (tx s) customer_id))))).

(** [ConversationDB(customer_id=..., customer_context=..., status='open',
    message_count=1)] of [start_or_get_conversation], with the identifier
    and the defaults the insert gives it. *)
Definition new_conversation (env : environment) (customer_id : string)
    (customer_context : option pydict) (cid : string) : ConversationDB.row :=
  {| ConversationDB.conversation_id := cid;
     ConversationDB.customer_id := customer_id;
     ConversationDB.status := "open";
     ConversationDB.priority := JNone;
     ConversationDB.category := JNone;
     ConversationDB.message_count := 1;
     ConversationDB.escalated := JBool false;
     ConversationDB.human_agent_id := None;
     ConversationDB.customer_context := JDict (or_empty customer_context);
     ConversationDB.classification_history := JList [];
     ConversationDB.articles_referenced := JList [];
     ConversationDB.created_at := now env;
     ConversationDB.updated_at := now env;
     ConversationDB.resolved_at := None |}.

(** The row [_track_kb_usage] adds for an article. *)
Definition new_usage (env : environment) (conversation_id : string) (uid : string)
    (article : pydict) : KnowledgeBaseUsageDB.row :=
  {| KnowledgeBaseUsageDB.id := uid;
     KnowledgeBaseUsageDB.conversation_id := conversation_id;
     KnowledgeBaseUsageDB.article_id := dict_get article "id" (JStr "unknown");
     KnowledgeBaseUsageDB.article_title := dict_get article "title" (JStr EmptyString);
     KnowledgeBaseUsageDB.relevance_score := dict_get article "relevance_score" (JInt 0);
     KnowledgeBaseUsageDB.was_helpful := None;
     KnowledgeBaseUsageDB.created_at := now env |}.

(** The block under [# Fall back to database] of [get_conversation_history]. *)
Definition history_from_database (env : environment) (conversation_id : string)
    (limit : Z) : M (list json) :=
  get_session env (
    round_trip env ;;
    if limit <? 0 then raise DataError
    else
      s ← get_state;
      let messages :=
        take (Z.to_nat limit) (order_by_created_at (messages_of (tx s) conversation_id)) in
      foldr (λ msg (rest : M unit),
        cache_add_message env conversation_id (MessageDB.role msg) (MessageDB.content msg)
          (history_dict msg) ;;
        rest) (mret tt) messages ;;
      mret (map (λ msg, JDict (history_dict msg)) messages)).

(** The orders of the two listings: oldest message first, newest
    conversation first. *)
Definition older (a b : MessageDB.row) : Prop :=
  MessageDB.created_at a ≤ MessageDB.created_at b.

Definition newer (a b : ConversationDB.row) : Prop :=
  ConversationDB.created_at b ≤ ConversationDB.created_at a.

(** The dict [_cache_conversation] builds from a conversation. *)
Definition cached_snapshot (conversation : ConversationDB.row) : pydict :=
  [("conversation_id", JStr (ConversationDB.conversation_id conversation));
   ("customer_id", JStr (ConversationDB.customer_id conversation));
   ("status", JStr (ConversationDB.status conversation));
   ("priority", ConversationDB.priority conversation);
   ("category", ConversationDB.category conversation);
   ("message_count", JInt (ConversationDB.message_count conversation));
   ("escalated", ConversationDB.escalated conversation);
   ("customer_context", ConversationDB.customer_context conversation);
   ("classification_history",
      py_or (ConversationDB.classification_history conversation) (JList []));
   ("articles_referenced",
      py_or (ConversationDB.articles_referenced conversation) (JList []))].

End Memory.

(* ================================================================== *)
(** * production_memory.py over either cache

    The two methods of the invalidate-on-write contract, with the cache
    calls going to [ConversationCache]: over the dicts they are the methods
    of module [Memory], over Redis they send its commands. *)

Module Deployed.

(** The state of the facade and, when the cache uses it, the Redis server.
    The dicts of the fallback are those of [cache] of the state. *)
Record world := {
  local : state;
  server : option Redis.server
}.

Definition W (A : Type) : Type := world → result A * world.

#[global] Instance W_ret : MRet W := λ A a w, (Ok a, w).
#[global] Instance W_bind : MBind W := λ A B f m w,
  match m w with
  | (Ok a, w') => f a w'
  | (Raise e, w') => (Raise e, w')
  end.

(** Computations on the world, and those of [M] among them. *)
Definition on_local (f : state → state) (w : world) : world :=
  {| local := f (local w); server := server w |}.

Definition lift {A} (m : M A) : W A := λ w,
  let '(a, s) := m (local w) in (a, {| local := s; server := server w |}).

Definition get_world : W world := λ w, (Ok w, w).

(** [self.cache], and the calls the two methods make on it. *)
Definition conversation_cache (w : world) : ConversationCache.instance :=
  {| ConversationCache.redis := server w; ConversationCache.memory := cache (local w) |}.

Definition with_cache (c : ConversationCache.instance) (w : world) : world :=
  {| local := set_cache (ConversationCache.memory c) (local w);
     server := ConversationCache.redis c |}.

Definition cache_get_conversation (env : environment) (link : nat → bool)
    (conversation_id : string) : W (option Cache.entry) := λ w,
  let '(cached, c) :=
    ConversationCache.get_conversation link (now env) conversation_id (conversation_cache w) in
  (Ok cached, with_cache c w).

Definition cache_set_conversation (env : environment) (link : nat → bool)
    (conversation_id : string) (context : pydict) : W unit := λ w,
  (Ok tt,
   on_local (log (EvCacheSetConversation conversation_id))
     (with_cache
        (ConversationCache.set_conversation link (now env) conversation_id context
           (conversation_cache w)) w)).

Definition cache_invalidate_conversation (link : nat → bool) (conversation_id : string)
    : W unit := λ w,
  (Ok tt,
   on_local (log (EvCacheInvalidate conversation_id))
     (with_cache
        (ConversationCache.invalidate_conversation link conversation_id
           (conversation_cache w)) w)).

(** [with self.db_manager.get_session() as session: body], as [get_session]
    above: commit and rollback do not reach the Redis server. *)
Definition get_session {A} (env : environment) (body : W A) : W A := λ w,
  match body (on_local (λ s, set_tx (db s) s) w) with
  | (Ok a, w1) =>
      match round_trip env (local w1) with
      | (Ok _, s2) => (Ok a, {| local := log EvCommit (set_db (tx s2) s2); server := server w1 |})
      | (Raise e, s2) =>
          (Raise e, {| local := log EvRollback (set_tx (db s2) s2); server := server w1 |})
      end
  | (Raise e, w1) => (Raise e, on_local (λ s, log EvRollback (set_tx (db s) s)) w1)
  end.

Definition context_from_database (env : environment) (link : nat → bool)
    (conversation_id : string) : W (option Cache.entry) :=
  get_session env (
    lift (round_trip env) ;;
    w ← get_world;
    match find_conversation (tx (local w)) conversation_id with
    | None => mret None
    | Some conversation =>
        let context := Memory.context_dict conversation in
        cache_set_conversation env link conversation_id context ;;
        mret (Some (Cache.EDict context))
    end).

Definition get_conversation_context (env : environment) (link : nat → bool)
    (conversation_id : string) : W (option Cache.entry) :=
  cached_context ← cache_get_conversation env link conversation_id;
  match cached_context with
  | Some v =>
      if Memory.entry_truthy v then mret (Some v)
      else context_from_database env link conversation_id
  | None => context_from_database env link conversation_id
  end.

Definition update_conversation_status (env : environment) (link : nat → bool)
    (conversation_id status : string) (human_agent_id : option string) : W unit :=
  get_session env (
    lift (round_trip env) ;;
    w ← get_world;
    match find_conversation (tx (local w)) conversation_id with
    | Some conversation =>
        lift (write_conversation (Memory.status_update env status human_agent_id conversation)) ;;
        cache_invalidate_conversation link conversation_id
    | None => mret tt
    end).

End Deployed.

(* ================================================================== *)
(** * Worlds used in the examples *)

Module Demo.

Definition ids : nat → string := λ k,
  match k with
  | O => "u0" | 1%nat => "u1" | 2%nat => "u2" | 3%nat => "u3" | 4%nat => "u4"
  | 5%nat => "u5" | 6%nat => "u6" | _ => "u7"
  end.

(** A working database, at instant [t]. *)
Definition at_time (t : datetime) : environment :=
  {| now := t; uuid4 := ids; db_fault := λ _, false |}.

Definition empty_db : Database :=
  {| conversations := []; messages := []; kb_usages := [] |}.

Definition start : state :=
  {| db := empty_db; tx := empty_db; cache := Cache._init_memory_cache;
     round_trips := 0; uuids_drawn := 0; trace := [] |}.

(** The database raises at its [k]-th round trip. *)
Definition failing_at (k : nat) (t : datetime) : environment :=
  {| now := t; uuid4 := ids; db_fault := λ i, bool_decide (i = k) |}.

(** A first message of customer [cust] opens conversation [u0]. *)
Definition opened : state :=
  snd (Memory.start_or_get_conversation (at_time 1000) "cust" "hello" None start).

(** The same customer writes again one millisecond later. *)
Definition continued : state :=
  snd (Memory.start_or_get_conversation (at_time 2000) "cust" "still there?" None opened).

(** The status change empties the cache of [u0]. *)
Definition in_progress : state :=
  snd (Memory.update_conversation_status (at_time 3000) "u0" "in_progress" None continued).

(** The commit of a first message fails: nothing is stored. *)
Definition aborted : state :=
  snd (Memory.start_or_get_conversation (failing_at 3 1000) "cust" "hello" None start).

(** What the agent passes with a reply: a classification and one article. *)
Definition billing : pydict :=
  [("classification",
      JDict [("category", JStr "billing"); ("priority", JStr "high");
             ("requires_human_escalation", JBool false)]);
   ("articles_used", JList [JDict [("id", JStr "kb1"); ("title", JStr "Refunds")]])].

(** The reply to the first message of [cust] is stored. *)
Definition answered : state :=
  snd (Memory.add_interaction (at_time 1500) "u0" "and now?" "hi there" (Some billing) opened).

(** A second classified reply, when the history already has an entry. *)
Definition answered_again : state :=
  snd (Memory.add_interaction (at_time 1600) "u0" "thanks" "welcome" (Some billing) answered).

(** The classification of [billing], the history entry made of it at
    instant [t], and the row of [u0] that [answered] has committed. *)
Definition classification : pydict :=
  [("category", JStr "billing"); ("priority", JStr "high");
   ("requires_human_escalation", JBool false)].

Definition entry (t : datetime) : json :=
  JDict [("timestamp", JIso t); ("classification", JDict classification)].

Definition answered_row : ConversationDB.row :=
  {| ConversationDB.conversation_id := "u0";
     ConversationDB.customer_id := "cust";
     ConversationDB.status := "open";
     ConversationDB.priority := JStr "high";
     ConversationDB.category := JStr "billing";
     ConversationDB.message_count := 3;
     ConversationDB.escalated := JBool false;
     ConversationDB.human_agent_id := None;
     ConversationDB.customer_context := JDict [];
     ConversationDB.classification_history := JList [entry 1500];
     ConversationDB.articles_referenced := JList [];
     ConversationDB.created_at := 1000;
     ConversationDB.updated_at := 1500;
     ConversationDB.resolved_at := None |}.

(** The history of [u0] is read with nothing in the cache. *)
Definition reread : state :=
  snd (Memory.get_conversation_history (at_time 4000) "u0" 20 in_progress).

(** Three pushes onto the window of conversation [c1] of an empty cache. *)
Definition push (content : string) (c : Cache.ConversationCache) : Cache.ConversationCache :=
  match Cache.add_message c 0 "c1" [("content", JStr content)] with
  | Ok c' => c'
  | Raise _ => c
  end.

Definition three_messages : Cache.ConversationCache :=
  push "third" (push "second" (push "first" Cache._init_memory_cache)).

(** What a returning customer passes as context. *)
Definition plan : pydict := [("plan", JStr "pro")].

(** Five hours after [opened], [cust] writes again. *)
Definition returned : state :=
  snd (Memory.start_or_get_conversation (at_time (hours 5)) "cust" "back again" (Some plan)
         opened).

(** A link to Redis that never fails, and one whose [k]-th command fails. *)
Definition sound_link : nat → bool := λ _, false.
Definition failing_link (k : nat) : nat → bool := λ i, bool_decide (i = k).

(** The database of [opened] behind a facade whose cache is an empty Redis
    server; the context of [u0] is read, which caches its snapshot; then the
    conversation is resolved. *)
Definition on_redis : Deployed.world :=
  {| Deployed.local := set_cache Cache._init_memory_cache opened;
     Deployed.server := Some Redis.empty |}.

Definition snapshot_cached (link : nat → bool) : Deployed.world :=
  snd (Deployed.get_conversation_context (at_time 1500) link "u0" on_redis).

Definition resolved (link : nat → bool) : Deployed.world :=
  snd (Deployed.update_conversation_status (at_time 2000) link "u0" "resolved" None
         (snapshot_cached link)).

(** [n] pushes onto the window of conversation [c1]. *)
Definition pushes (link : nat → bool) (n : nat) (c : ConversationCache.instance)
    : ConversationCache.instance :=
  Nat.iter n
    (λ c, match ConversationCache.add_message link 0 "c1" [("content", JStr "m")] c with
          | Ok c' => c'
          | Raise _ => c
          end) c.

(** Three pushes on Redis; and 51 of them, the [LTRIM] of the last one
    failing: it is the command number 152, after the ping of [__init__] and
    three commands for each push. *)
Definition three_on_redis : ConversationCache.instance :=
  pushes sound_link 3 (ConversationCache.__init__ true sound_link).

Definition fifty_one_on_redis : ConversationCache.instance :=
  pushes (failing_link 152) 51 (ConversationCache.__init__ true (failing_link 152)).

End Demo.

(* ================================================================== *)
(** * The properties, as the specification words them *)

(** [message_count] of conversation [cid] is the number of its rows in
    [messages]. *)
Definition count_matches (d : Database) (cid : string) : Prop :=
  ∀ c, find_conversation d cid = Some c →
    ConversationDB.message_count c = Z.of_nat (length (messages_of d cid)).

(** An open or in-progress conversation of the customer, updated within the
    last four hours. *)
Definition qualifies (env : environment) (customer : string) (c : ConversationDB.row)
    : Prop :=
  ConversationDB.customer_id c = customer
  ∧ (ConversationDB.status c = "open" ∨ ConversationDB.status c = "in_progress")
  ∧ now env - ConversationDB.updated_at c < hours 4.

Definition no_fault (env : environment) : Prop := ∀ k, db_fault env k = false.

(** The identifiers the environment still has to hand out are not taken. *)
Definition fresh_ids (env : environment) (s : state) : Prop :=
  ∀ k, (uuids_drawn s ≤ k)%nat →
    has_conversation (db s) (uuid4 env k) = false ∧ has_message (db s) (uuid4 env k) = false.

(** The two [DEL] of an invalidation are not lost on the link: they are the
    next two commands of the client.  Nothing to ask of the dicts. *)
Definition invalidation_arrives (link : nat → bool) (w : Deployed.world) : Prop :=
  match Deployed.server w with
  | None => True
  | Some r => link (Redis.commands r) = false ∧ link (S (Redis.commands r)) = false
  end.

(** A normal return, which is also what a status update that found its
    conversation gives, tells the caller nothing. *)
Definition signals_not_found (r : result unit) : Prop := r ≠ Ok tt.

(** The usage rows touch neither the committed rows, the cache, the log nor
    the tables of conversations and messages. *)
Definition same_but_usages (s s' : state) : Prop :=
  db s' = db s ∧ cache s' = cache s ∧ trace s' = trace s
  ∧ round_trips s' = round_trips s
  ∧ conversations (tx s') = conversations (tx s)
  ∧ messages (tx s') = messages (tx s).

(** A computation that takes a cache the methods can build to a cache the
    methods can build. *)
Definition keeps_cache_reachable {A} (m : M A) : Prop :=
  ∀ s, Cache.reachable (cache s) → Cache.reachable (cache (snd (m s))).

(** A computation that writes neither the committed rows nor, for
    [leaves_tx], the rows of the open session. *)
Definition leaves_db {A} (m : M A) : Prop := ∀ s, db (snd (m s)) = db s.
Definition leaves_tx {A} (m : M A) : Prop := ∀ s, tx (snd (m s)) = tx s.

(** A computation that, when it raises, leaves the committed rows as they
    were. *)
Definition rolls_back {A} (m : M A) : Prop :=
  ∀ s, match m s with
       | (Raise _, s') => db s' = db s
       | (Ok _, _) => True
       end.

(** The texts of a list of message dicts. *)
Definition contents (l : list json) : list json :=
  map (λ m, match m with JDict d => dict_get d "content" JNone | _ => JNone end) l.

#[global] Instance event_eq_dec : EqDecision event.
Proof. solve_decision. Defined.

Definition is_cache_write (e : event) : bool :=
  match e with
  | EvCacheAddMessage _ _ _ | EvCacheSetConversation _ => true
  | _ => false
  end.

(** Every cache write of the log comes after a commit. *)
Fixpoint written_after_commit (committed : bool) (tr : list event) : bool :=
  match tr with
  | [] => true
  | EvCommit :: tr' => written_after_commit true tr'
  | e :: tr' =>
      (if is_cache_write e then committed else true) && written_after_commit committed tr'
  end.

(** Every push to a message window comes right after the flush of that
    message, every snapshot after a flushed message of its conversation, and
    the commit or rollback closes the log. *)
Fixpoint written_after_flush (prev : option event) (flushed : list string)
    (tr : list event) : bool :=
  match tr with
  | [] => true
  | e :: tr' =>
      match e with
      | EvCacheAddMessage c r m => bool_decide (prev = Some (EvInsertMessage c r m))
      | EvCacheSetConversation c => bool_decide (c ∈ flushed)
      | EvCommit | EvRollback => bool_decide (tr' = [])
      | _ => true
      end
      && written_after_flush (Some e)
           (match e with EvInsertMessage c _ _ => c :: flushed | _ => flushed end) tr'
  end.

(* ================================================================== *)
(** * Theorems *)

(** ** The message windows of the cache *)

Section cache_facts.
Import Cache.

Lemma conv_key_not_messages a b : conv_key a ≠ messages_key b.
Proof. discriminate. Qed.

Lemma classification_key_not_messages a b : classification_key a ≠ messages_key b.
Proof. discriminate. Qed.

Lemma messages_key_inj a b : messages_key a = messages_key b → a = b.
Proof. unfold messages_key. simpl. intros H. by simplify_eq. Qed.

Lemma slice_to_length {A} limit (l : list A) : (length (slice_to limit l) ≤ length l)%nat.
Proof. unfold slice_to. case_match; rewrite length_take; lia. Qed.

Lemma slice_to_bound {A} limit (l : list A) :
  0 ≤ limit → Z.of_nat (length (slice_to limit l)) ≤ limit.
Proof.
  intros Hl. unfold slice_to. 
  destruct (0 <=? limit) eqn:E; [|lia].
  rewrite length_take. lia.
Qed.

Lemma windows_ok_store c key v expiry :
  windows_ok c →
  (∀ id, key = messages_key id → ∃ l, v = EList l ∧ (length l ≤ 50)%nat) →
  windows_ok (store c key v expiry).
Proof.
  intros Hc Hv id w. unfold store. simpl.
  destruct (decide (key = messages_key id)) as [->|Hne].
  - rewrite lookup_insert_eq. intros [= <-]. eauto.
  - rewrite lookup_insert_ne by done. apply Hc.
Qed.

Lemma windows_ok_evict c key : windows_ok c → windows_ok (evict c key).
Proof.
  intros Hc id w. unfold evict. destruct (memory_cache c !! key) eqn:E; [|apply Hc].
  simpl. destruct (decide (key = messages_key id)) as [->|Hne].
  - by rewrite lookup_delete_eq.
  - rewrite lookup_delete_ne by done. apply Hc.
Qed.

Lemma windows_ok_add_message c now id message c' :
  windows_ok c → add_message c now id message = Ok c' → windows_ok c'.
Proof.
  intros Hc. unfold add_message.
  destruct (memory_cache c !! messages_key id) as [[d|l]|] eqn:E; [done| |];
    intros [= <-]; apply windows_ok_store; try done; intros _ _;
    eexists; (split; [done|]);
    match goal with |- (length (slice_to 50 ?w) ≤ _)%nat =>
      pose proof (slice_to_bound 50 w ltac:(lia)); lia end.
Qed.

Lemma add_message_total c now id message :
  windows_ok c → ∃ c', add_message c now id message = Ok c'.
Proof.
  intros Hc. unfold add_message.
  destruct (memory_cache c !! messages_key id) as [v|] eqn:E; [|eauto].
  destruct (Hc _ _ E) as (l & -> & _). eauto.
Qed.

Lemma reachable_windows_ok c : reachable c → windows_ok c.
Proof.
  induction 1.
  - intros id v. simpl. by rewrite lookup_empty.
  - apply windows_ok_store; [done|]. intros id' E. by apply conv_key_not_messages in E.
  - by eapply windows_ok_add_message.
  - apply windows_ok_store; [done|]. intros id' E. by apply classification_key_not_messages in E.
  - by do 2 apply windows_ok_evict.
  - intros id v. simpl. by rewrite lookup_empty.
Qed.

Lemma get_recent_messages_bounded c now id limit :
  windows_ok c →
  ∃ r, get_recent_messages c now id limit = Ok r
       ∧ ∀ l, r = Some l → (length l ≤ 50)%nat ∧ (0 ≤ limit → Z.of_nat (length l) ≤ limit).
Proof.
  intros Hc. unfold get_recent_messages, live.
  destruct (memory_cache c !! messages_key id) as [v|] eqn:E.
  - destruct (Hc _ _ E) as (w & -> & Hw).
    destruct (_is_expired c now (messages_key id)).
    + eexists; split; [done|]. intros l [=].
    + eexists; split; [done|]. intros l [= <-]. split.
      * pose proof (slice_to_length limit w). lia.
      * apply slice_to_bound.
  - eexists; split; [done|]. intros l [=].
Qed.
End cache_facts.

Import Memory.

(** ** The steps of the facade *)

Lemma _add_message_eq env cid role content md s :
  _add_message env cid role content md s =
    let m := new_message env cid role content md (uuid4 env (uuids_drawn s)) in
    let sent := {| db := db s; tx := tx s; cache := cache s;
                   round_trips := S (round_trips s);
                   uuids_drawn := S (uuids_drawn s); trace := trace s |} in
    let flushed :=
         {| db := db s;
            tx := {| conversations := conversations (tx s);
                     messages := messages (tx s) ++ [m];
                     kb_usages := kb_usages (tx s) |};
            cache := cache s;
            round_trips := S (round_trips s);
            uuids_drawn := S (uuids_drawn s);
            trace := trace s ++ [EvInsertMessage cid role content] |} in
    if db_fault env (round_trips s) then (Raise OperationalError, sent)
    else if has_message (tx s) (uuid4 env (uuids_drawn s)) then (Raise IntegrityError, sent)
    else if negb (has_conversation (tx s) cid) then (Raise IntegrityError, sent)
    else
      match Cache.add_message (cache s) (now env) cid
              (message_dict role content (now env) (or_empty md)) with
      | Ok c => (Ok m, log (EvCacheAddMessage cid role content) (set_cache c flushed))
      | Raise e => (Raise e, flushed)
      end.
Proof.
  unfold _add_message, flush_message, cache_add_message, mbind, M_bind, uuid, round_trip,
    get_state, raise, modify; simpl.
  destruct (db_fault env (round_trips s)); [done|].
  destruct (has_message _ _); [done|].
  destruct (has_conversation _ _); simpl; [|done].
  destruct (Cache.add_message _ _ _ _); done.
Qed.

Lemma same_but_usages_trans s1 s2 s3 :
  same_but_usages s1 s2 → same_but_usages s2 s3 → same_but_usages s1 s3.
Proof. unfold same_but_usages. intuition congruence. Qed.

Lemma track_article_frame env cid article s :
  same_but_usages s (snd (track_article env cid article s)).
Proof. destruct article; done. Qed.

Lemma track_articles_frame env cid items s :
  same_but_usages s
    (snd (foldr (λ article (rest : M unit), track_article env cid article ;; rest)
            (mret tt) items s)).
Proof.
  revert s. induction items as [|a items IH]; intros s; simpl; [done|].
  unfold mbind, M_bind.
  pose proof (track_article_frame env cid a s) as Ha.
  destruct (track_article env cid a s) as [[[]|e] s1]; [|exact Ha].
  eapply same_but_usages_trans; [exact Ha|apply IH].
Qed.

Lemma _track_kb_usage_frame env cid articles s :
  same_but_usages s (snd (_track_kb_usage env cid articles s)).
Proof.
  unfold _track_kb_usage. destruct (py_iter articles); [apply track_articles_frame|done..].
Qed.

Lemma find_conversation_has d cid c :
  find_conversation d cid = Some c → has_conversation d cid = true.
Proof.
  unfold find_conversation, has_conversation. intros H.
  apply find_some in H as [Hin Hc]. apply existsb_exists. eauto.
Qed.

Lemma has_conversation_find d cid :
  has_conversation d cid = true → ∃ c, find_conversation d cid = Some c.
Proof.
  unfold find_conversation, has_conversation. intros H.
  destruct (find _ _) as [c|] eqn:E; [eauto|].
  apply existsb_exists in H as (c & Hin & Hc).
  by rewrite (find_none _ _ E c Hin) in Hc.
Qed.

Lemma add_interaction_outcome env cid user_message agent_response metadata s :
  match add_interaction env cid user_message agent_response metadata s with
  | (Raise _, s') => db s' = db s
  | (Ok _, s') =>
      ∃ m1 m2 c c',
        messages (db s') = messages (db s) ++ [m1; m2]
        ∧ m1 = new_message env cid "user" user_message None (MessageDB.id m1)
        ∧ m2 = new_message env cid "assistant" agent_response metadata (MessageDB.id m2)
        ∧ find_conversation (db s) cid = Some c
        ∧ interaction_update env metadata c = Ok c'
        ∧ conversations (db s') = replace_conversation (flushed c c') (conversations (db s))
  end.
Proof.
  unfold add_interaction, get_session, mbind, M_bind.
  rewrite _add_message_eq; cbv zeta; simpl.
  destruct (db_fault env (round_trips s)); [done|].
  destruct (has_message _ _); [done|].
  destruct (has_conversation _ _) eqn:Hhas; simpl; [|done].
  destruct (Cache.add_message _ _ _ _) as [c1|]; [|done].
  rewrite _add_message_eq; cbv zeta; simpl.
  destruct (db_fault env (S (round_trips s))); [done|].
  destruct (has_message _ _); [done|].
  unfold has_conversation in *; simpl in *; rewrite Hhas; simpl.
  destruct (Cache.add_message c1 _ _ _) as [c2|]; [|done].
  unfold round_trip, get_state; simpl.
  destruct (db_fault env (S (S (round_trips s)))); [done|].
  simpl.
  apply (has_conversation_find (db s)) in Hhas as [c Hc].
  unfold find_conversation in *; simpl in *. rewrite Hc.
  destruct (interaction_update env metadata c) as [c'|] eqn:Hupd; [|done].
  unfold write_conversation, modify; simpl.
  match goal with |- context [(if ?b then ?m else mret tt) ?st] =>
    assert (same_but_usages st (snd ((if b then m else mret tt) st))) as Hframe
      by (destruct b; [apply _track_kb_usage_frame|done]);
    destruct ((if b then m else mret tt) st) as [[[]|e] s3]
  end; destruct Hframe as (Hdb & Hcache & Htrace & Hrt & Hconv & Hmsg); simpl in *; [|done].
  unfold _cache_conversation, cache_set_conversation, modify; simpl.
  rewrite Hrt.
  destruct (db_fault env (S (S (S (round_trips s))))); simpl; [done|].
  rewrite Hconv, Hmsg, <- app_assoc.
  eexists _, _, c, c'. repeat split; try done.
Qed.

(** ** The continuity query *)

Lemma recent_active_qualifies env customer c :
  recent_active env customer c = true ↔ qualifies env customer c.
Proof.
  unfold recent_active, qualifies.
  rewrite !andb_true_iff, orb_true_iff, !bool_decide_eq_true. intuition lia.
Qed.

Lemma latest_updated_None l : latest_updated l = None → l = [].
Proof.
  destruct l as [|c l]; [done|]. simpl.
  destruct (latest_updated l); [case_bool_decide|]; done.
Qed.

Lemma latest_updated_Some l c :
  latest_updated l = Some c →
  c ∈ l ∧ ∀ c', c' ∈ l → ConversationDB.updated_at c' ≤ ConversationDB.updated_at c.
Proof.
  revert c. induction l as [|x l IH]; intros c; [done|]. simpl.
  destruct (latest_updated l) as [y|] eqn:E.
  - destruct (IH y eq_refl) as [Hy Hmax]. case_bool_decide; intros [= <-].
    + split; [by right|]. intros c' [->|Hc']%elem_of_cons; [lia|auto].
    + split; [by left|]. intros c' [->|Hc']%elem_of_cons; [lia|].
      specialize (Hmax _ Hc'). lia.
  - apply latest_updated_None in E as ->. intros [= <-].
    split; [by left|]. intros c' [->|Hc']%elem_of_cons; [lia|]. by apply elem_of_nil in Hc'.
Qed.

Lemma elem_of_filter_bool {A} (f : A → bool) (l : list A) x :
  x ∈ List.filter f l ↔ x ∈ l ∧ f x = true.
Proof. rewrite !list_elem_of_In. apply filter_In. Qed.

Lemma has_conversation_elem d c :
  c ∈ conversations d → has_conversation d (ConversationDB.conversation_id c) = true.
Proof.
  intros Hc. apply existsb_exists. exists c. split; [by apply list_elem_of_In|].
  by apply bool_decide_eq_true.
Qed.

Lemma existsb_snoc {A} (f : A → bool) l x : existsb f (l ++ [x]) = existsb f l || f x.
Proof. rewrite existsb_app. simpl. by rewrite orb_false_r. Qed.

(** C4: with the database available, unused identifiers and a well-formed
    cache, [start_or_get_conversation] returns the identifier of a
    qualifying conversation of the customer with the latest [updated_at]
    when there is one; when there is none it creates exactly one
    conversation, with status [open] and the context that was supplied (the
    empty dict when none was), records exactly one message with role [user]
    in it, and returns its new identifier. *)
Theorem C4_start_or_get_conversation env customer message context s r s' :
  no_fault env → fresh_ids env s → Cache.windows_ok (cache s) →
  start_or_get_conversation env customer message context s = (r, s') →
  ((∃ c, c ∈ conversations (db s) ∧ qualifies env customer c) →
     ∃ c, r = Ok (ConversationDB.conversation_id c)
          ∧ c ∈ conversations (db s) ∧ qualifies env customer c
          ∧ ∀ c', c' ∈ conversations (db s) → qualifies env customer c' →
              ConversationDB.updated_at c' ≤ ConversationDB.updated_at c)
  ∧ ((∀ c, c ∈ conversations (db s) → ¬ qualifies env customer c) →
     ∃ new m,
       r = Ok (ConversationDB.conversation_id new)
       ∧ has_conversation (db s) (ConversationDB.conversation_id new) = false
       ∧ conversations (db s') = conversations (db s) ++ [new]
       ∧ ConversationDB.status new = "open"
       ∧ ConversationDB.customer_id new = customer
       ∧ (∀ d, context = Some d → ConversationDB.customer_context new = JDict d)
       ∧ (context = None → ConversationDB.customer_context new = JDict [])
       ∧ messages (db s') = messages (db s) ++ [m]
       ∧ MessageDB.role m = "user"
       ∧ MessageDB.content m = message
       ∧ MessageDB.conversation_id m = ConversationDB.conversation_id new).
Proof.
  intros Hnf Hfresh Hwin.
  destruct (Hfresh _ (le_n _)) as [Hc0 Hm0].
  destruct (Hfresh _ (le_S _ _ (le_n _))) as [_ Hm1].
  unfold start_or_get_conversation, get_session, mbind, M_bind, round_trip, get_state; simpl.
  rewrite Hnf; simpl.
  destruct (latest_updated _) as [rc|] eqn:Hq.
  - apply latest_updated_Some in Hq as [Hin Hmax].
    apply elem_of_filter_bool in Hin as [Hin Hrc].
    rewrite _add_message_eq; cbv zeta; simpl. rewrite Hnf.
    rewrite Hm0, (has_conversation_elem _ _ Hin); simpl.
    destruct (add_message_total (cache s) (now env)
                (ConversationDB.conversation_id rc)
                (message_dict "user" message (now env) []) Hwin) as [c1 ->]; simpl.
    rewrite Hnf. intros [= <- <-]. split.
    + intros _. exists rc.
      split; [done|]. split; [done|]. split; [by apply recent_active_qualifies|].
      intros c' Hc' Hq'. apply Hmax, elem_of_filter_bool.
      split; [done|by apply recent_active_qualifies].
    + intros Hno. destruct (Hno rc Hin). by apply recent_active_qualifies.
  - apply latest_updated_None in Hq.
    unfold uuid, flush_conversation, mbind, M_bind, round_trip, get_state, raise, modify; simpl.
    rewrite Hnf; simpl. rewrite Hc0; simpl.
    rewrite _add_message_eq; cbv zeta; simpl. rewrite Hnf.
    unfold has_conversation, has_message in *; simpl. rewrite Hm1.
    rewrite existsb_snoc, bool_decide_eq_true_2 by done.
    rewrite orb_true_r; simpl.
    destruct (add_message_total (cache s) (now env)
                (uuid4 env (uuids_drawn s))
                (message_dict "user" message (now env) []) Hwin) as [c1 ->]; simpl.
    rewrite Hnf. intros [= <- <-]. split.
    + intros (c & Hc & Hqc). exfalso.
      assert (c ∈ List.filter (recent_active env customer) (conversations (db s))) as Hin
        by (apply elem_of_filter_bool; split; [done|by apply recent_active_qualifies]).
      rewrite Hq in Hin. by apply elem_of_nil in Hin.
    + intros _.
      exists (new_conversation env customer context (uuid4 env (uuids_drawn s))),
        (new_message env (uuid4 env (uuids_drawn s)) "user" message None
           (uuid4 env (S (uuids_drawn s)))).
      simpl.
      do 5 (split; [done|]). split; [by intros d ->|]. split; [by intros ->|].
      repeat split; done.
Qed.

(** ** Status changes *)

Lemma evict_lookup c key k :
  Cache.memory_cache (Cache.evict c key) !! k
  = if decide (key = k) then None else Cache.memory_cache c !! k.
Proof.
  unfold Cache.evict. destruct (Cache.memory_cache c !! key) eqn:E; simpl.
  - by rewrite lookup_delete.
  - case_decide; congruence.
Qed.

Lemma get_conversation_invalidated c now id :
  Cache.get_conversation (Cache.invalidate_conversation c id) now id = None.
Proof.
  unfold Cache.get_conversation, Cache.live, Cache.invalidate_conversation.
  rewrite !evict_lookup. rewrite decide_False by discriminate. by rewrite decide_True.
Qed.

Lemma find_conversation_id l cid c :
  find (λ c, bool_decide (ConversationDB.conversation_id c = cid)) l = Some c →
  ConversationDB.conversation_id c = cid.
Proof. intros H. apply find_some in H as [_ H]. by apply bool_decide_eq_true in H. Qed.

Lemma find_replace_conversation l cid c c' :
  find (λ c, bool_decide (ConversationDB.conversation_id c = cid)) l = Some c →
  ConversationDB.conversation_id c' = cid →
  find (λ c, bool_decide (ConversationDB.conversation_id c = cid))
    (replace_conversation c' l) = Some c'.
Proof.
  intros Hfind Hid. induction l as [|x l IH]; [done|]. simpl in *. rewrite Hid.
  destruct (bool_decide (ConversationDB.conversation_id x = cid)) eqn:E; simpl.
  - by rewrite bool_decide_eq_true_2.
  - rewrite E. auto.
Qed.

(** Over the dicts the two methods are those of module [Memory]. *)
Lemma lift_in_memory_update env link cid status agent s :
  Deployed.update_conversation_status env link cid status agent
    {| Deployed.local := s; Deployed.server := None |}
  = Deployed.lift (Memory.update_conversation_status env cid status agent)
      {| Deployed.local := s; Deployed.server := None |}.
Proof.
  unfold Deployed.update_conversation_status, Memory.update_conversation_status,
    Deployed.get_session, get_session, Deployed.lift, mbind, Deployed.W_bind, M_bind,
    round_trip, Deployed.get_world, get_state; simpl.
  destruct (db_fault env (round_trips s)); [done|]. simpl.
  destruct (find_conversation (db s) cid) as [c|]; simpl.
  - destruct (db_fault env (S (round_trips s))); done.
  - destruct (db_fault env (S (round_trips s))); done.
Qed.

Lemma lift_in_memory_context env link cid s :
  Deployed.get_conversation_context env link cid
    {| Deployed.local := s; Deployed.server := None |}
  = Deployed.lift (Memory.get_conversation_context env cid)
      {| Deployed.local := s; Deployed.server := None |}.
Proof.
  unfold Deployed.get_conversation_context, Memory.get_conversation_context,
    Deployed.context_from_database, Memory.context_from_database,
    Deployed.cache_get_conversation,
    Deployed.get_session, get_session, Deployed.lift, mbind, Deployed.W_bind, M_bind,
    round_trip, Deployed.get_world, get_state; simpl.
  destruct s as [d t c rt u tr]; simpl.
  destruct (Cache.get_conversation c (now env) cid) as [v|]; simpl.
  - destruct (Memory.entry_truthy v); [done|].
    unfold Deployed.on_local; simpl.
    destruct (db_fault env rt); [done|]. simpl.
    destruct (find_conversation d cid) as [c0|]; simpl;
      destruct (db_fault env (S rt)); done.
  - unfold Deployed.on_local; simpl.
    destruct (db_fault env rt); [done|]. simpl.
    destruct (find_conversation d cid) as [c0|]; simpl;
      destruct (db_fault env (S rt)); done.
Qed.

Lemma get_conversation_after_invalidation link link' now id c c' :
  (∀ r, ConversationCache.redis c = Some r →
        link (Redis.commands r) = false ∧ link (S (Redis.commands r)) = false) →
  ConversationCache.redis c'
  = ConversationCache.redis (ConversationCache.invalidate_conversation link id c) →
  ConversationCache.memory c'
  = ConversationCache.memory (ConversationCache.invalidate_conversation link id c) →
  fst (ConversationCache.get_conversation link' now id c') = None.
Proof.
  intros Hlink. destruct c' as [r' m']. simpl. intros -> ->.
  unfold ConversationCache.get_conversation,
    ConversationCache.invalidate_conversation.
  destruct (ConversationCache.redis c) as [r|] eqn:Hr; simpl.
  - destruct (Hlink r eq_refl) as [H0 H1].
    unfold mbind, Redis.command_bind, Redis.del, Redis.send; simpl.
    rewrite H0; simpl. rewrite H1; simpl.
    unfold Redis.get, Redis.send; simpl.
    destruct (link' _); [done|].
    unfold Redis.live; simpl.
    rewrite lookup_delete_ne by discriminate. by rewrite lookup_delete_eq.
  - rewrite Hr. simpl. apply get_conversation_invalidated.
Qed.


(** ** Unknown conversations *)

(** C9, amended: for an identifier that is not in the database and a
    database that answers, [update_conversation_status] returns normally,
    without any signal, and leaves database and cache as they were; and
    [get_conversation_context] returns [None], unchanged state too, provided
    the cache holds no live snapshot under that identifier. *)
Theorem C9_unknown_conversation env cid status agent s :
  has_conversation (db s) cid = false →
  db_fault env (round_trips s) = false →
  db_fault env (S (round_trips s)) = false →
  (∃ s', update_conversation_status env cid status agent s = (Ok tt, s')
         ∧ db s' = db s ∧ cache s' = cache s)
  ∧ (Cache.get_conversation (cache s) (now env) cid = None →
     ∃ s', get_conversation_context env cid s = (Ok None, s')
           ∧ db s' = db s ∧ cache s' = cache s).
Proof.
  intros Hno Hq Hcommit.
  assert (find_conversation (db s) cid = None) as Hfind.
  { destruct (find_conversation (db s) cid) eqn:E; [|done].
    apply find_conversation_has in E. congruence. }
  split.
  - unfold update_conversation_status, get_session, mbind, M_bind, round_trip, get_state; simpl.
    rewrite Hq; simpl. rewrite Hfind; simpl. rewrite Hcommit. eauto.
  - intros Hmiss.
    unfold get_conversation_context, context_from_database, get_session, mbind, M_bind,
      round_trip, get_state; simpl.
    rewrite Hmiss, Hq; simpl. rewrite Hfind; simpl. rewrite Hcommit. eauto.
Qed.

(** ** The order of flush, cache write and commit *)

Lemma interaction_update_id env metadata c c' :
  interaction_update env metadata c = Ok c' →
  ConversationDB.conversation_id c' = ConversationDB.conversation_id c.
Proof.
  unfold interaction_update.
  destruct (given metadata && dict_has (or_empty metadata) "classification").
  - destruct (append_history _ _); [|done].
    destruct (dict_get _ _ _); by intros [= <-].
  - by intros [= <-].
Qed.

Ltac close_log :=
  simpl; rewrite <- ?app_assoc; simpl;
  eexists; split; [reflexivity|];
  simpl; rewrite ?bool_decide_eq_true_2 by (done || set_solver); done.

(** C2, amended: in every run of [start_or_get_conversation] and of
    [add_interaction], each push onto a cached message window comes right
    after the successful flush of that message inside the open transaction,
    the conversation snapshot is cached only after a message of that
    conversation was flushed in the same transaction, and all these cache
    writes come before the commit or the rollback that ends the run. *)
Theorem C2_cache_written_after_flush env s :
  (∀ customer message context,
     ∃ tr, trace (snd (start_or_get_conversation env customer message context s))
           = trace s ++ tr
           ∧ written_after_flush None [] tr = true)
  ∧ (∀ cid user_message agent_response metadata,
     ∃ tr, trace (snd (add_interaction env cid user_message agent_response metadata s))
           = trace s ++ tr
           ∧ written_after_flush None [] tr = true).
Proof.
  split.
  - intros customer message context.
    unfold start_or_get_conversation, get_session, mbind, M_bind, round_trip, get_state; simpl.
    destruct (db_fault env (round_trips s)); [close_log|]. simpl.
    destruct (latest_updated _) as [rc|].
    + rewrite _add_message_eq; cbv zeta; simpl.
      destruct (db_fault env (S (round_trips s))); [close_log|].
      destruct (has_message _ _); [close_log|].
      destruct (has_conversation _ _); simpl; [|close_log].
      destruct (Cache.add_message _ _ _ _); [|close_log]. simpl.
      destruct (db_fault env (S (S (round_trips s)))); close_log.
    + unfold uuid, flush_conversation, mbind, M_bind, round_trip, get_state, raise, modify;
        simpl.
      destruct (db_fault env (S (round_trips s))); [close_log|]. simpl.
      destruct (has_conversation _ _); [close_log|]. simpl.
      rewrite _add_message_eq; cbv zeta; simpl.
      destruct (db_fault env (S (S (round_trips s)))); [close_log|].
      destruct (has_message _ _); [close_log|].
      destruct (has_conversation _ _); simpl; [|close_log].
      destruct (Cache.add_message _ _ _ _); [|close_log]. simpl.
      destruct (db_fault env (S (S (S (round_trips s))))); close_log.
  - intros cid user_message agent_response metadata.
    unfold add_interaction, get_session, mbind, M_bind.
    rewrite _add_message_eq; cbv zeta; simpl.
    destruct (db_fault env (round_trips s)); [close_log|].
    destruct (has_message _ _); [close_log|].
    destruct (has_conversation _ _) eqn:Hhas; simpl; [|close_log].
    destruct (Cache.add_message _ _ _ _) as [c1|]; [|close_log].
    rewrite _add_message_eq; cbv zeta; simpl.
    destruct (db_fault env (S (round_trips s))); [close_log|].
    destruct (has_message _ _); [close_log|].
    unfold has_conversation in *; simpl in *; rewrite Hhas; simpl.
    destruct (Cache.add_message c1 _ _ _) as [c2|]; [|close_log].
    unfold round_trip, get_state; simpl.
    destruct (db_fault env (S (S (round_trips s)))); [close_log|].
    simpl.
    destruct (find_conversation _ cid) as [c|] eqn:Hc; simpl.
    2:{ destruct (db_fault env (S (S (S (round_trips s))))); close_log. }
    destruct (interaction_update env metadata c) as [c'|] eqn:Hc'; [|close_log].
    apply interaction_update_id in Hc'. apply find_conversation_id in Hc.
    unfold write_conversation, modify; simpl.
    match goal with |- context [(if ?b then ?m else mret tt) ?st] =>
      assert (same_but_usages st (snd ((if b then m else mret tt) st))) as Hframe
        by (destruct b; [apply _track_kb_usage_frame|done]);
      destruct ((if b then m else mret tt) st) as [[[]|e] s3]
    end; destruct Hframe as (Hdb & Hcache & Htrace & Hrt & Hconv & Hmsg); simpl in *.
    2:{ rewrite Htrace. close_log. }
    unfold _cache_conversation, cache_set_conversation, modify; simpl.
    rewrite Hrt, Htrace, Hc', Hc.
    destruct (db_fault env (S (S (S (round_trips s))))); close_log.
Qed.

(** ** The message window *)

(** The lists of the Redis server *)

Section redis_facts.
Import Redis.

Lemma range_length {A} start stop (l : list A) : (length (range start stop l) ≤ length l)%nat.
Proof.
  unfold range. destruct (_ || _); simpl; [lia|].
  rewrite length_take, length_drop. lia.
Qed.

Lemma range_prefix_bound {A} limit (l : list A) :
  1 ≤ limit → Z.of_nat (length (range 0 (limit - 1) l)) ≤ limit.
Proof.
  intros Hl. unfold range.
  replace (limit - 1 <? 0) with false by (symmetry; apply Z.ltb_ge; lia).
  destruct (_ || _); simpl; [lia|].
  rewrite length_take. lia.
Qed.

Lemma range_take {A} stop (l : list A) :
  0 ≤ stop → range 0 stop l = take (Z.to_nat (stop + 1)) l.
Proof.
  intros Hs. unfold range.
  replace (stop <? 0) with false by (symmetry; apply Z.ltb_ge; lia).
  change (Z.max 0 (if 0 <? 0 then Z.of_nat (length l) + 0 else 0)) with 0.
  replace (stop <? 0) with false by (symmetry; apply Z.ltb_ge; lia). simpl orb.
  destruct (Z.leb_spec (Z.of_nat (length l)) 0) as [Hn|Hn].
  - destruct l; [by rewrite take_nil|simpl in Hn; lia].
  - rewrite drop_0.
    destruct (decide (stop ≤ Z.of_nat (length l) - 1)) as [Hle|Hgt].
    + f_equal. lia.
    + rewrite !take_ge by lia. done.
Qed.

Lemma range_50 {A} (l : list A) : (length (range 0 49 l) ≤ 50)%nat.
Proof.
  pose proof (range_prefix_bound 50 l ltac:(lia)) as H. change (50 - 1) with 49 in H. lia.
Qed.

Lemma lists_ok_keys r r' : keys r' = keys r → lists_ok r → lists_ok r'.
Proof. intros E H key l e. rewrite E. apply H. Qed.

Lemma lists_ok_insert r r' key v e :
  keys r' = <[key := (v, e)]> (keys r) →
  (∀ l, v = RList l → (length l ≤ 50)%nat) →
  lists_ok r → lists_ok r'.
Proof.
  intros E Hv H key' l e'. rewrite E.
  destruct (decide (key = key')) as [->|Hne].
  - rewrite lookup_insert_eq. intros [= -> ->]. by apply Hv.
  - rewrite lookup_insert_ne by done. apply H.
Qed.

Lemma lists_ok_delete r r' key :
  keys r' = delete key (keys r) → lists_ok r → lists_ok r'.
Proof.
  intros E H key' l e'. rewrite E.
  destruct (decide (key = key')) as [->|Hne].
  - by rewrite lookup_delete_eq.
  - rewrite lookup_delete_ne by done. apply H.
Qed.

Lemma live_lookup r now key v e :
  live r now key = Some (v, e) →
  keys r !! key = Some (v, e) ∧ ∀ x, e = Some x → ¬ x < now.
Proof.
  unfold live. destruct (keys r !! key) as [[v' [x|]]|]; [|by intros [= -> <-]|done].
  case_bool_decide; [done|]. intros [= -> <-]. split; [done|]. by intros ? [= <-].
Qed.

Lemma live_put r now key v e :
  (∀ x, e = Some x → ¬ x < now) → live (put key v e r) now key = Some (v, e).
Proof.
  intros He. unfold live, put; simpl. rewrite lookup_insert_eq.
  destruct e as [x|]; [|done]. by rewrite bool_decide_eq_false_2 by by apply He.
Qed.

Lemma live_commands r n now key :
  live {| keys := keys r; commands := n |} now key = live r now key.
Proof. done. Qed.

Lemma send_reaches {A} link (run : command A) r :
  link (commands r) = false → send link run r = run (bump r).
Proof. intros H. unfold send. by rewrite H. Qed.

Lemma live_bump r now key : live (bump r) now key = live r now key.
Proof. done. Qed.

Lemma live_put_bump r now key v e :
  (∀ x, e = Some x → ¬ x < now) → live (bump (put key v e r)) now key = Some (v, e).
Proof. intros He. rewrite live_bump. by apply live_put. Qed.

(** What [add_message] leaves on a server that the three commands reach. *)
Lemma pushed_keys link now key d r :
  link (commands r) = false → link (S (commands r)) = false →
  link (S (S (commands r))) = false →
  keys (snd ((lpush link now key d ;;
              ltrim link now key 0 49 ;;
              expire link now key Cache.conversation_ttl) r))
  = match live r now key with
    | Some (RList l, _) =>
        <[key := (RList (range 0 49 (d :: l)), Some (now + Cache.conversation_ttl))]> (keys r)
    | Some (RString _, _) => keys r
    | None => <[key := (RList [d], Some (now + Cache.conversation_ttl))]> (keys r)
    end.
Proof.
  intros H0 H1 H2.
  unfold mbind, command_bind, lpush. rewrite send_reaches by done. rewrite live_bump.
  destruct (live r now key) as [[[s|l] e]|] eqn:Hlive.
  - done.
  - apply live_lookup in Hlive as [_ He].
    unfold ltrim. rewrite send_reaches by done. rewrite live_put_bump by done.
    destruct (range 0 49 (d :: l)) as [|x l'] eqn:Hrange.
    { by rewrite range_take in Hrange. }
    unfold expire. rewrite send_reaches by done. rewrite live_put_bump by done.
    simpl. by rewrite !insert_insert_eq.
  - unfold ltrim. rewrite send_reaches by done. rewrite live_put_bump by done.
    change (range 0 49 [d]) with [d].
    unfold expire. rewrite send_reaches by done. rewrite live_put_bump by done.
    simpl. by rewrite !insert_insert_eq.
Qed.

End redis_facts.

Lemma reachable_memory_ok link c :
  ConversationCache.reachable link c → Cache.windows_ok (ConversationCache.memory c).
Proof.
  induction 1 as [b|c now id _ IH|c now id data _ IH|c now id limit _ IH
                 |c now id message c' _ IH Hadd|c now h cl _ IH|c now h _ IH
                 |c id _ IH|c _ IH|c _ IH].
  - unfold ConversationCache.__init__.
    destruct b; [destruct (Redis.ping _ _) as [[?|] ?]|];
      apply reachable_windows_ok, Cache.reach_init.
  - unfold ConversationCache.get_conversation.
    destruct (ConversationCache.redis c); [|done].
    by destruct (Redis.get _ _ _ _) as [[[?|]|] ?].
  - unfold ConversationCache.set_conversation.
    destruct (ConversationCache.redis c); [done|]. simpl.
    apply windows_ok_store; [done|]. intros id' E. by apply conv_key_not_messages in E.
  - unfold ConversationCache.get_recent_messages.
    destruct (ConversationCache.redis c); [|done].
    by destruct (Redis.lrange _ _ _ _ _ _) as [[?|] ?].
  - revert Hadd. unfold ConversationCache.add_message.
    destruct (ConversationCache.redis c); [by intros [= <-]|].
    destruct (Cache.add_message _ _ _ _) as [m|] eqn:E; [|done].
    intros [= <-]. simpl. by eapply windows_ok_add_message.
  - unfold ConversationCache.cache_classification.
    destruct (ConversationCache.redis c); [done|]. simpl.
    apply windows_ok_store; [done|].
    intros id' E. by apply classification_key_not_messages in E.
  - unfold ConversationCache.get_cached_classification.
    destruct (ConversationCache.redis c); [|done].
    by destruct (Redis.get _ _ _ _) as [[[?|]|] ?].
  - unfold ConversationCache.invalidate_conversation.
    destruct (ConversationCache.redis c); [done|]. simpl.
    by do 2 apply windows_ok_evict.
  - unfold ConversationCache.clear_cache.
    destruct (ConversationCache.redis c); [done|]. simpl.
    intros id v. simpl. by rewrite lookup_empty.
  - unfold ConversationCache.ping.
    destruct (ConversationCache.redis c); [|done].
    by destruct (Redis.ping _ _).
Qed.

Section redis_invariant.
Import Redis.
Context (link : nat → bool) (Hlink : ∀ k, link k = false).

Lemma sent {A} (run : command A) r : send link run r = run (bump r).
Proof. by apply send_reaches. Qed.

Lemma lists_ok_get now key r : lists_ok r → lists_ok (snd (get link now key r)).
Proof.
  intros H. unfold get. rewrite sent.
  by destruct (live _ _ _) as [[[?|?] ?]|].
Qed.

Lemma lists_ok_lrange now key start stop r :
  lists_ok r → lists_ok (snd (lrange link now key start stop r)).
Proof.
  intros H. unfold lrange. rewrite sent.
  by destruct (live _ _ _) as [[[?|?] ?]|].
Qed.

Lemma lists_ok_setex now key ttl d r : lists_ok r → lists_ok (snd (setex link now key ttl d r)).
Proof.
  intros H. unfold setex. rewrite sent. simpl.
  by eapply (lists_ok_insert r).
Qed.

Lemma lists_ok_dels key1 key2 r :
  lists_ok r → lists_ok (snd ((del link key1 ;; del link key2) r)).
Proof.
  intros H. unfold mbind, command_bind, del. rewrite !sent. simpl.
  eapply (lists_ok_delete (remove key1 r)); [done|].
  by eapply (lists_ok_delete r).
Qed.

Lemma lists_ok_pushed now key d r :
  lists_ok r →
  lists_ok (snd ((lpush link now key d ;;
                  ltrim link now key 0 49 ;;
                  expire link now key Cache.conversation_ttl) r)).
Proof.
  intros H.
  pose proof (pushed_keys link now key d r (Hlink _) (Hlink _) (Hlink _)) as E.
  destruct (live r now key) as [[[s|l] e]|].
  - by eapply lists_ok_keys.
  - eapply lists_ok_insert; [exact E| |done]. intros ? [= <-]. apply range_50.
  - eapply lists_ok_insert; [exact E| |done]. intros ? [= <-]. simpl. lia.
Qed.

Lemma reachable_redis_ok c :
  ConversationCache.reachable link c →
  ∀ r, ConversationCache.redis c = Some r → lists_ok r.
Proof.
  induction 1 as [b|c now id _ IH|c now id data _ IH|c now id limit _ IH
                 |c now id message c' _ IH Hadd|c now h cl _ IH|c now h _ IH
                 |c id _ IH|c _ IH|c _ IH]; intros r'.
  - unfold ConversationCache.__init__. destruct b; [|done].
    unfold Redis.ping. rewrite sent. simpl.
    intros [= <-]. intros key l e. simpl. by rewrite lookup_empty.
  - unfold ConversationCache.get_conversation.
    destruct (ConversationCache.redis c) as [r|] eqn:Hr; [|simpl; by rewrite Hr].
    pose proof (lists_ok_get now (Cache.conv_key id) r (IH r eq_refl)) as Hok.
    destruct (Redis.get _ _ _ _) as [[[?|]|] ?]; simpl in *; by intros [= <-].
  - unfold ConversationCache.set_conversation.
    destruct (ConversationCache.redis c) as [r|] eqn:Hr; [|simpl; by rewrite Hr].
    simpl. intros [= <-]. by apply lists_ok_setex, IH.
  - unfold ConversationCache.get_recent_messages.
    destruct (ConversationCache.redis c) as [r|] eqn:Hr; [|simpl; by rewrite Hr].
    pose proof (lists_ok_lrange now (Cache.messages_key id) 0 (limit - 1) r (IH r eq_refl))
      as Hok.
    destruct (Redis.lrange _ _ _ _ _ _) as [[?|] ?]; simpl in *; by intros [= <-].
  - revert Hadd. unfold ConversationCache.add_message.
    destruct (ConversationCache.redis c) as [r|] eqn:Hr.
    + intros [= <-]. simpl. intros [= <-]. by apply lists_ok_pushed, IH.
    + destruct (Cache.add_message _ _ _ _); [|done]. intros [= <-]. simpl. by rewrite Hr.
  - unfold ConversationCache.cache_classification.
    destruct (ConversationCache.redis c) as [r|] eqn:Hr; [|simpl; by rewrite Hr].
    simpl. intros [= <-]. by apply lists_ok_setex, IH.
  - unfold ConversationCache.get_cached_classification.
    destruct (ConversationCache.redis c) as [r|] eqn:Hr; [|simpl; by rewrite Hr].
    pose proof (lists_ok_get now (Cache.classification_key h) r (IH r eq_refl)) as Hok.
    destruct (Redis.get _ _ _ _) as [[[?|]|] ?]; simpl in *; by intros [= <-].
  - unfold ConversationCache.invalidate_conversation.
    destruct (ConversationCache.redis c) as [r|] eqn:Hr; [|simpl; by rewrite Hr].
    simpl. intros [= <-]. by apply lists_ok_dels, IH.
  - unfold ConversationCache.clear_cache.
    destruct (ConversationCache.redis c) as [r|] eqn:Hr; [|simpl; by rewrite Hr].
    simpl. intros [= <-]. unfold flushdb. rewrite sent. simpl.
    intros key l e. simpl. by rewrite lookup_empty.
  - unfold ConversationCache.ping.
    destruct (ConversationCache.redis c) as [r|] eqn:Hr; [|simpl; by rewrite Hr].
    unfold Redis.ping. rewrite sent. simpl. intros [= <-].
    eapply (lists_ok_keys r); [done|by apply IH].
Qed.

End redis_invariant.


Lemma pushes_reachable link n c :
  ConversationCache.reachable link c → ConversationCache.reachable link (Demo.pushes link n c).
Proof.
  intros Hc. induction n as [|n IH]; [done|]. simpl.
  destruct (ConversationCache.add_message _ _ _ _ _) eqn:E; [|done].
  by eapply ConversationCache.reach_add_message.
Qed.



(** ** The facade keeps the cache well formed *)

Create HintDb kr.

Lemma kr_ret {A} (a : A) : keeps_cache_reachable (mret a).
Proof. by intros s. Qed.

Lemma kr_bind {A B} (m : M A) (f : A → M B) :
  keeps_cache_reachable m → (∀ a, keeps_cache_reachable (f a)) →
  keeps_cache_reachable (m ≫= f).
Proof.
  intros Hm Hf s Hs. unfold mbind, M_bind. specialize (Hm s Hs).
  destruct (m s) as [[a|e] s1]; [by apply Hf|done].
Qed.

Lemma kr_pure {A} (m : M A) :
  (∀ s, cache (snd (m s)) = cache s) → keeps_cache_reachable m.
Proof. intros H s Hs. by rewrite H. Qed.

Lemma kr_raise {A} e : keeps_cache_reachable (@raise A e).
Proof. by apply kr_pure. Qed.

Lemma kr_get_state : keeps_cache_reachable get_state.
Proof. by apply kr_pure. Qed.

Lemma kr_round_trip env : keeps_cache_reachable (round_trip env).
Proof. apply kr_pure. intros s. unfold round_trip. by destruct (db_fault _ _). Qed.

Lemma kr_uuid env : keeps_cache_reachable (uuid env).
Proof. by apply kr_pure. Qed.

Lemma kr_write_conversation c : keeps_cache_reachable (write_conversation c).
Proof. by apply kr_pure. Qed.

Lemma kr_add_usage u : keeps_cache_reachable (add_usage u).
Proof. by apply kr_pure. Qed.

Lemma kr_flush_conversation env c : keeps_cache_reachable (flush_conversation env c).
Proof.
  apply kr_pure. intros s. unfold flush_conversation, mbind, M_bind, round_trip, get_state.
  destruct (db_fault _ _); [done|]. simpl. by destruct (has_conversation _ _).
Qed.

Lemma kr_flush_message env m : keeps_cache_reachable (flush_message env m).
Proof.
  apply kr_pure. intros s. unfold flush_message, mbind, M_bind, round_trip, get_state.
  destruct (db_fault _ _); [done|]. simpl. destruct (has_message _ _); [done|].
  by destruct (has_conversation _ _).
Qed.

Lemma kr_cache_add_message env cid role content message :
  keeps_cache_reachable (cache_add_message env cid role content message).
Proof.
  intros s Hs. unfold cache_add_message.
  destruct (Cache.add_message _ _ _ _) eqn:E; [|done]. simpl.
  by eapply Cache.reach_add_message.
Qed.

Lemma kr_cache_set_conversation env cid context :
  keeps_cache_reachable (cache_set_conversation env cid context).
Proof. intros s Hs. simpl. by apply Cache.reach_set_conversation. Qed.

Lemma kr_cache_invalidate_conversation cid :
  keeps_cache_reachable (cache_invalidate_conversation cid).
Proof. intros s Hs. simpl. by apply Cache.reach_invalidate. Qed.

Lemma kr_get_session {A} env (body : M A) :
  keeps_cache_reachable body → keeps_cache_reachable (get_session env body).
Proof.
  intros Hb s Hs. unfold get_session. specialize (Hb (set_tx (db s) s) Hs).
  destruct (body _) as [[a|e] s1]; [|done].
  unfold round_trip. by destruct (db_fault _ _).
Qed.

Lemma kr_foldr {A} (f : A → M unit) (l : list A) :
  (∀ a, keeps_cache_reachable (f a)) →
  keeps_cache_reachable (foldr (λ a (rest : M unit), f a ;; rest) (mret tt) l).
Proof.
  intros Hf. induction l as [|a l IH]; simpl; [apply kr_ret|].
  apply kr_bind; [apply Hf|by intros _].
Qed.

#[local] Hint Resolve kr_ret kr_raise kr_get_state kr_round_trip kr_uuid
  kr_write_conversation kr_add_usage kr_flush_conversation kr_flush_message
  kr_cache_add_message kr_cache_set_conversation kr_cache_invalidate_conversation : kr.

Ltac kr_step :=
  first
    [ apply kr_get_session
    | apply kr_bind
    | apply kr_foldr
    | progress intros
    | progress eauto with kr
    | match goal with
      | |- keeps_cache_reachable (match ?x with _ => _ end) => destruct x
      | |- keeps_cache_reachable (if ?x then _ else _) => destruct x
      end ].

Lemma kr__add_message env cid role content md :
  keeps_cache_reachable (_add_message env cid role content md).
Proof. unfold _add_message. repeat kr_step. Qed.

Lemma kr__cache_conversation env c : keeps_cache_reachable (_cache_conversation env c).
Proof. unfold _cache_conversation. repeat kr_step. Qed.

Lemma kr__track_kb_usage env cid articles :
  keeps_cache_reachable (_track_kb_usage env cid articles).
Proof. unfold _track_kb_usage, track_article. repeat kr_step. Qed.

#[local] Hint Resolve kr__add_message kr__cache_conversation kr__track_kb_usage : kr.

Lemma kr_start_or_get_conversation env customer message context :
  keeps_cache_reachable (start_or_get_conversation env customer message context).
Proof. unfold start_or_get_conversation. repeat kr_step. Qed.

(** X22: every operation of the facade takes a cache the methods can build
    to a cache the methods can build, whose message windows therefore hold
    at most 50 entries. *)
Theorem facade_keeps_cache_reachable env :
  (∀ customer message context,
     keeps_cache_reachable (start_or_get_conversation env customer message context))
  ∧ (∀ cid user_message agent_response metadata,
     keeps_cache_reachable (add_interaction env cid user_message agent_response metadata))
  ∧ (∀ cid limit, keeps_cache_reachable (get_conversation_history env cid limit))
  ∧ (∀ cid, keeps_cache_reachable (get_conversation_context env cid))
  ∧ (∀ cid status agent,
     keeps_cache_reachable (update_conversation_status env cid status agent)).
Proof.
  repeat split; intros;
    unfold start_or_get_conversation, add_interaction, get_conversation_history,
      get_conversation_context, context_from_database, update_conversation_status;
    repeat kr_step.
Qed.

(** ** The message counter *)

Lemma interaction_update_count env metadata c c' :
  interaction_update env metadata c = Ok c' →
  ConversationDB.message_count c' = ConversationDB.message_count c + 2.
Proof.
  unfold interaction_update.
  destruct (given metadata && dict_has (or_empty metadata) "classification").
  - destruct (append_history _ _); [|done].
    destruct (dict_get _ _ _); by intros [= <-].
  - by intros [= <-].
Qed.

Lemma messages_of_snoc2 d d' cid m1 m2 :
  messages d' = messages d ++ [m1; m2] →
  MessageDB.conversation_id m1 = cid → MessageDB.conversation_id m2 = cid →
  messages_of d' cid = messages_of d cid ++ [m1; m2].
Proof.
  intros Hd H1 H2. unfold messages_of. rewrite Hd, filter_app.
  f_equal. rewrite filter_cons_True by done. by rewrite filter_cons_True by done.
Qed.

(** X21: [add_interaction] adds two rows and counts two: where the counter
    was right before a call that returns, it is right after it. *)
Lemma add_interaction_keeps_count env cid user_message agent_response metadata s s' :
  add_interaction env cid user_message agent_response metadata s = (Ok tt, s') →
  count_matches (db s) cid → count_matches (db s') cid.
Proof.
  intros Hrun Hcount.
  pose proof (add_interaction_outcome env cid user_message agent_response metadata s) as H.
  rewrite Hrun in H. destruct H as (m1 & m2 & c & c' & Hm & Hm1 & Hm2 & Hc & Hc' & Hconv).
  assert (MessageDB.conversation_id m1 = cid) as Hcid1 by (by rewrite Hm1).
  assert (MessageDB.conversation_id m2 = cid) as Hcid2 by (by rewrite Hm2).
  intros x Hx. unfold find_conversation in Hx, Hc. rewrite Hconv in Hx.
  pose proof (interaction_update_id _ _ _ _ Hc') as Hid.
  rewrite (find_conversation_id _ _ _ Hc) in Hid.
  rewrite (find_replace_conversation _ _ _ (flushed c c') Hc Hid) in Hx. injection Hx as <-.
  rewrite (messages_of_snoc2 _ _ _ _ _ Hm Hcid1 Hcid2), length_app.
  cbn [flushed ConversationDB.message_count].
  rewrite (interaction_update_count _ _ _ _ Hc'), (Hcount _ Hc). simpl. lia.
Qed.

(** C1: the count is right after the first message of customer [cust], and
    wrong after the second: [start_or_get_conversation] continues
    conversation [u0], adds a second row to [messages], and leaves
    [message_count] at 1. *)
Theorem C1_continuation_leaves_count_behind :
  let run :=
    start_or_get_conversation (Demo.at_time 2000) "cust" "still there?" None Demo.opened in
  count_matches (db Demo.opened) "u0"
  ∧ fst run = Ok "u0"
  ∧ ConversationDB.message_count <$> find_conversation (db (snd run)) "u0" = Some 1
  ∧ length (messages_of (db (snd run)) "u0") = 2%nat
  ∧ ¬ count_matches (db (snd run)) "u0".
Proof.
  split; [|split; [|split; [|split]]].
  - intros c Hc. vm_compute in Hc. injection Hc as <-. reflexivity.
  - vm_compute. reflexivity.
  - vm_compute. reflexivity.
  - vm_compute. reflexivity.
  - intros H.
    specialize (H _ ltac:(vm_compute; reflexivity)). vm_compute in H. discriminate.
Qed.

(** ** The user message of an interaction *)

(** C6: [add_interaction] called with the message that
    [start_or_get_conversation] has already stored inserts it again: the
    conversation ends up with two rows for the one user message. *)
Theorem C6_user_message_stored_twice :
  let run := add_interaction (Demo.at_time 1500) "u0" "hello" "hi there" None Demo.opened in
  fst run = Ok tt
  ∧ map (λ m, (MessageDB.role m, MessageDB.content m)) (messages_of (db Demo.opened) "u0")
    = [("user", "hello")]
  ∧ map (λ m, (MessageDB.role m, MessageDB.content m)) (messages_of (db (snd run)) "u0")
    = [("user", "hello"); ("user", "hello"); ("assistant", "hi there")].
Proof. repeat split; vm_compute; reflexivity. Qed.

(** ** The snapshot of a conversation *)

(** C7: right after [start_or_get_conversation] created conversation [u0],
    [get_conversation_context] is served from the cache, and the snapshot
    has no [duration_minutes], [created_at] or [updated_at]. *)
Theorem C7_cached_snapshot_without_duration :
  ∃ d,
    fst (get_conversation_context (Demo.at_time 1500) "u0" Demo.opened)
    = Ok (Some (Cache.EDict d))
    ∧ dict_lookup d "duration_minutes" = None
    ∧ dict_lookup d "created_at" = None
    ∧ dict_lookup d "updated_at" = None.
Proof. eexists. split; [vm_compute; reflexivity|]. repeat split; vm_compute; reflexivity. Qed.

Section database_snapshot.
Import PrimFloat.

(** Read from the database, the snapshot has the three fields; two
    milliseconds are 3.3333333333333335e-05 minutes. *)
Example snapshot_from_database :
  ∃ d,
    fst (get_conversation_context (Demo.at_time 4000) "u0" Demo.in_progress)
    = Ok (Some (Cache.EDict d))
    ∧ dict_lookup d "duration_minutes" = Some (JFloat 0x1.179ec9cbd821ep-15%float)
    ∧ dict_lookup d "created_at" = Some (JIso 1000)
    ∧ dict_lookup d "updated_at" = Some (JIso 3000).
Proof. eexists. split; [vm_compute; reflexivity|]. repeat split; vm_compute; reflexivity. Qed.
End database_snapshot.

(** ** The history, cold and warm *)

(** C10: with two messages in the database and nothing in the cache, the
    first [get_conversation_history] returns them oldest first, and the
    second, served from the window the first one filled, newest first. *)
Theorem C10_history_reversed_by_backfill :
  let cold := get_conversation_history (Demo.at_time 4000) "u0" 20 Demo.in_progress in
  let warm := get_conversation_history (Demo.at_time 5000) "u0" 20 (snd cold) in
  Cache.get_recent_messages (cache Demo.in_progress) 4000 "u0" 20 = Ok None
  ∧ (∃ l, fst cold = Ok l ∧ contents l = [JStr "hello"; JStr "still there?"])
  ∧ (∃ l, fst warm = Ok l ∧ contents l = [JStr "still there?"; JStr "hello"])
  ∧ fst cold ≠ fst warm.
Proof.
  split; [vm_compute; reflexivity|].
  split; [eexists; split; vm_compute; reflexivity|].
  split; [eexists; split; vm_compute; reflexivity|].
  vm_compute. discriminate.
Qed.

(** ** Counterexamples and instances *)

(** C2 as stated fails when the commit of [add_interaction] raises: the
    transaction is rolled back and the database is as before, while the
    cache holds the two messages and a snapshot that counts them; the cache
    writes of the run come before any commit. *)
Lemma C2_rollback_leaves_cache_written :
  let run :=
    add_interaction (Demo.failing_at 7 1500) "u0" "are you there?" "yes" None Demo.opened in
  fst run = Raise OperationalError
  ∧ db (snd run) = db Demo.opened
  ∧ (∃ l, Cache.get_recent_messages (cache (snd run)) 1500 "u0" 2 = Ok (Some l)
          ∧ contents l = [JStr "yes"; JStr "are you there?"])
  ∧ (∃ d, Cache.get_conversation (cache (snd run)) 1500 "u0" = Some (Cache.EDict d)
          ∧ dict_lookup d "message_count" = Some (JInt 3))
  ∧ written_after_commit false (drop (length (trace Demo.opened)) (trace (snd run))) = false.
Proof.
  split; [vm_compute; reflexivity|].
  split; [vm_compute; reflexivity|].
  split; [eexists; split; vm_compute; reflexivity|].
  split; [eexists; split; vm_compute; reflexivity|].
  vm_compute; reflexivity.
Qed.

(** C9 as stated fails: the status update of an identifier the database does
    not have returns normally; and after a creation whose commit failed, the
    identifier is not in the database while [get_conversation_context]
    still answers with the snapshot the creation cached. *)
Lemma C9_unknown_status_update_is_silent :
  ¬ signals_not_found
      (fst (update_conversation_status (Demo.at_time 1000) "missing" "resolved" None
              Demo.start))
  ∧ fst (start_or_get_conversation (Demo.failing_at 3 1000) "cust" "hello" None Demo.start)
    = Raise OperationalError
  ∧ has_conversation (db Demo.aborted) "u0" = false
  ∧ ∃ d, fst (get_conversation_context (Demo.at_time 1500) "u0" Demo.aborted)
         = Ok (Some (Cache.EDict d)).
Proof.
  split; [intros H; apply H; vm_compute; reflexivity|].
  split; [vm_compute; reflexivity|].
  split; [vm_compute; reflexivity|].
  eexists. vm_compute. reflexivity.
Qed.

Lemma opened_fresh_ids t : fresh_ids (Demo.at_time t) Demo.opened.
Proof.
  intros k Hk. change (uuids_drawn Demo.opened) with 2%nat in Hk.
  do 8 (destruct k as [|k]; [try lia; split; reflexivity|]).
  split; reflexivity.
Qed.

Lemma opened_windows_ok : Cache.windows_ok (cache Demo.opened).
Proof.
  apply reachable_windows_ok.
  apply (kr_start_or_get_conversation (Demo.at_time 1000) "cust" "hello" None Demo.start).
  apply Cache.reach_init.
Qed.

(** C4, at the second message of customer [cust], one millisecond after the
    first, which continues conversation [u0]; and at a message five hours
    later that comes with a context, which opens a conversation with that
    context. *)
Lemma C4_start_or_get_conversation_witness :
  (∃ c,
     fst (start_or_get_conversation (Demo.at_time 2000) "cust" "still there?" None
            Demo.opened)
     = Ok (ConversationDB.conversation_id c)
     ∧ c ∈ conversations (db Demo.opened) ∧ qualifies (Demo.at_time 2000) "cust" c
     ∧ ∀ c', c' ∈ conversations (db Demo.opened) → qualifies (Demo.at_time 2000) "cust" c' →
         ConversationDB.updated_at c' ≤ ConversationDB.updated_at c)
  ∧ (∃ new m,
       fst (start_or_get_conversation (Demo.at_time (hours 5)) "cust" "back again"
              (Some Demo.plan) Demo.opened)
       = Ok (ConversationDB.conversation_id new)
       ∧ has_conversation (db Demo.opened) (ConversationDB.conversation_id new) = false
       ∧ conversations (db Demo.returned) = conversations (db Demo.opened) ++ [new]
       ∧ ConversationDB.status new = "open"
       ∧ ConversationDB.customer_id new = "cust"
       ∧ (∀ d, Some Demo.plan = Some d → ConversationDB.customer_context new = JDict d)
       ∧ (Some Demo.plan = None → ConversationDB.customer_context new = JDict [])
       ∧ messages (db Demo.returned) = messages (db Demo.opened) ++ [m]
       ∧ MessageDB.role m = "user"
       ∧ MessageDB.content m = "back again"
       ∧ MessageDB.conversation_id m = ConversationDB.conversation_id new).
Proof.
  split.
  - refine (proj1 (C4_start_or_get_conversation (Demo.at_time 2000) "cust" "still there?"
                     None Demo.opened _ Demo.continued _ _ _ _) _).
    + intros k. reflexivity.
    + apply opened_fresh_ids.
    + apply opened_windows_ok.
    + unfold Demo.continued. apply surjective_pairing.
    + eexists. split; [apply list_elem_of_singleton; reflexivity|].
      split; [reflexivity|]. split; [left; reflexivity|]. vm_compute. reflexivity.
  - refine (proj2 (C4_start_or_get_conversation (Demo.at_time (hours 5)) "cust" "back again"
                     (Some Demo.plan) Demo.opened _ Demo.returned _ _ _ _) _).
    + intros k. reflexivity.
    + apply opened_fresh_ids.
    + apply opened_windows_ok.
    + unfold Demo.returned. apply surjective_pairing.
    + intros c Hc (_ & _ & Hrecent). vm_compute in Hc.
      apply list_elem_of_singleton in Hc. subst c. vm_compute in Hrecent. discriminate.
Defined.



(** C9, at the empty database. *)
Lemma C9_unknown_conversation_witness :
  (∃ s', update_conversation_status (Demo.at_time 1000) "missing" "resolved" None Demo.start
         = (Ok tt, s')
         ∧ db s' = db Demo.start ∧ cache s' = cache Demo.start)
  ∧ (Cache.get_conversation (cache Demo.start) 1000 "missing" = None →
     ∃ s', get_conversation_context (Demo.at_time 1000) "missing" Demo.start = (Ok None, s')
           ∧ db s' = db Demo.start ∧ cache s' = cache Demo.start).
Proof.
  apply (C9_unknown_conversation (Demo.at_time 1000) "missing" "resolved" None Demo.start);
    reflexivity.
Defined.

(** ** Reading the cache after a write *)

Section cache_reads.
Import Cache.

Lemma conv_key_inj a b : conv_key a = conv_key b → a = b.
Proof. unfold conv_key. simpl. intros H. by simplify_eq. Qed.

Lemma classification_key_inj a b : classification_key a = classification_key b → a = b.
Proof. unfold classification_key. simpl. intros H. by simplify_eq. Qed.

Lemma conv_key_not_classification a b : conv_key a ≠ classification_key b.
Proof. discriminate. Qed.

Lemma live_store c key v expiry now k :
  live (store c key v expiry) now k
  = if decide (key = k) then (if bool_decide (now ≤ expiry) then Some v else None)
    else live c now k.
Proof.
  unfold live, store, _is_expired; simpl. case_decide as Hk.
  - subst. rewrite !lookup_insert_eq.
    repeat case_bool_decide; done || lia.
  - by rewrite !lookup_insert_ne.
Qed.

Lemma live_evict c key now k :
  live (evict c key) now k = if decide (key = k) then None else live c now k.
Proof.
  unfold live, _is_expired. rewrite evict_lookup. case_decide as Hk; [done|].
  unfold evict. destruct (memory_cache c !! key); simpl; [|done].
  by rewrite lookup_delete_ne.
Qed.

Lemma live_invalidate c id now k :
  live (invalidate_conversation c id) now k
  = if decide (k = conv_key id ∨ k = messages_key id) then None else live c now k.
Proof.
  unfold invalidate_conversation. rewrite !live_evict.
  destruct (decide (messages_key id = k)) as [<-|Hm].
  - rewrite decide_True; auto.
  - destruct (decide (conv_key id = k)) as [<-|Hc].
    + rewrite decide_True; auto.
    + rewrite decide_False; [done|]. intros [->| ->]; done.
Qed.

(** X1: a snapshot written with [set_conversation] is read back by
    [get_conversation] as it was written for four hours, and is absent
    after that, whatever the cache held before. *)
Theorem snapshot_round_trip c now now' id data :
  get_conversation (set_conversation c now id data) now' id
  = if bool_decide (now' ≤ now + hours 4) then Some (EDict data) else None.
Proof.
  unfold get_conversation, set_conversation. rewrite live_store.
  by rewrite decide_True.
Qed.

(** X2: a classification cached under a message hash is read back as it was
    written for thirty minutes, and is absent after that. *)
Theorem classification_round_trip c now now' h classification :
  get_cached_classification (cache_classification c now h classification) now' h
  = if bool_decide (now' ≤ now + minutes 30) then Some (EDict classification) else None.
Proof.
  unfold get_cached_classification, cache_classification. rewrite live_store.
  by rewrite decide_True.
Qed.

Lemma invalidated_reads c now id limit :
  get_conversation (invalidate_conversation c id) now id = None
  ∧ get_recent_messages (invalidate_conversation c id) now id limit = Ok None.
Proof.
  unfold get_conversation, get_recent_messages. rewrite !live_invalidate.
  rewrite !decide_True; auto.
Qed.

(** X3: [invalidate_conversation] removes the snapshot and the message
    window of its conversation, and changes nothing that is read for another
    conversation or for any message hash. *)
Theorem invalidate_conversation_scope c now id limit :
  get_conversation (invalidate_conversation c id) now id = None
  ∧ get_recent_messages (invalidate_conversation c id) now id limit = Ok None
  ∧ (∀ id', id' ≠ id →
       get_conversation (invalidate_conversation c id) now id' = get_conversation c now id'
       ∧ get_recent_messages (invalidate_conversation c id) now id' limit
         = get_recent_messages c now id' limit)
  ∧ ∀ h, get_cached_classification (invalidate_conversation c id) now h
         = get_cached_classification c now h.
Proof.
  unfold get_conversation, get_recent_messages, get_cached_classification.
  split; [|split; [|split]].
  - rewrite live_invalidate. rewrite decide_True; auto.
  - rewrite live_invalidate. rewrite decide_True; auto.
  - intros id' Hne. rewrite !live_invalidate. split.
    + rewrite decide_False; [done|].
      intros [H%conv_key_inj|H]; [done|by apply conv_key_not_messages in H].
    + rewrite decide_False; [done|].
      intros [H|H%messages_key_inj]; [|done]. symmetry in H.
      by apply conv_key_not_messages in H.
  - intros h. rewrite live_invalidate. rewrite decide_False; [done|].
    intros [H|H]; [symmetry in H; by apply conv_key_not_classification in H|].
    by apply classification_key_not_messages in H.
Qed.

Lemma slice_to_50 {A} (l : list A) : slice_to 50 l = take 50 l.
Proof. reflexivity. Qed.

Lemma add_message_window c now id message c' :
  add_message c now id message = Ok c' →
  c' = store c (messages_key id) (EList (take 50 (JDict message :: window c id)))
         (now + hours 4).
Proof.
  unfold add_message, window.
  destruct (memory_cache c !! messages_key id) as [[d|l]|]; [done| |];
    intros [= <-]; by rewrite slice_to_50.
Qed.

Lemma recent_after_add c now now' id message limit c' :
  add_message c now id message = Ok c' →
  get_recent_messages c' now' id limit
  = if bool_decide (now' ≤ now + hours 4)
    then Ok (Some (slice_to limit (take 50 (JDict message :: window c id))))
    else Ok None.
Proof.
  intros ->%add_message_window. unfold get_recent_messages. rewrite live_store.
  rewrite decide_True by done. by case_bool_decide.
Qed.

(** X4: [add_message] does not look at the expiry.  A message window that
    has expired but is still in the dict reads as absent, and the next
    [add_message] brings it back: the new message comes first and the
    expired ones follow. *)
Theorem expired_window_revived c now id message l limit :
  memory_cache c !! messages_key id = Some (EList l) →
  _is_expired c now (messages_key id) = true →
  get_recent_messages c now id limit = Ok None
  ∧ ∃ c', add_message c now id message = Ok c'
          ∧ get_recent_messages c' now id limit
            = Ok (Some (slice_to limit (take 50 (JDict message :: l)))).
Proof.
  intros Hl Hexp. split.
  - unfold get_recent_messages, live. by rewrite Hl, Hexp.
  - assert (window c id = l) as Hw by (unfold window; by rewrite Hl).
    destruct (add_message c now id message) as [c'|e] eqn:Hadd.
    + exists c'. split; [done|].
      rewrite (recent_after_add _ _ now _ _ limit _ Hadd), Hw.
      rewrite bool_decide_eq_true_2; [done|]. unfold hours. lia.
    + unfold add_message in Hadd. by rewrite Hl in Hadd.
Qed.

Lemma window_store c id v expiry :
  window (store c (messages_key id) (EList v) expiry) id = v.
Proof. unfold window, store; simpl. by rewrite lookup_insert_eq. Qed.

Lemma take_app_take {A} n (l k : list A) : take n (l ++ take n k) = take n (l ++ k).
Proof. rewrite !take_app, take_take. do 2 f_equal. lia. Qed.

Lemma add_messages_cons c now id m ms c' :
  add_messages c now id (m :: ms) = Ok c' →
  ∃ c0, c' = store c0 (messages_key id)
               (EList (take 50 (rev (map JDict (m :: ms)) ++ window c id)))
               (now + hours 4).
Proof.
  revert c m. induction ms as [|m2 ms IH]; intros c m; cbn [add_messages].
  - destruct (add_message c now id m) as [c1|] eqn:E1; [|done]. intros [= <-].
    exists c. by apply add_message_window.
  - destruct (add_message c now id m) as [c1|] eqn:E1; [|done].
    intros H. apply (IH c1 m2) in H as [c0 ->]. exists c0. do 2 f_equal.
    apply add_message_window in E1 as ->. rewrite window_store, take_app_take.
    change (rev (map JDict (m :: m2 :: ms)))
      with (rev (map JDict (m2 :: ms)) ++ [JDict m]).
    by rewrite <- app_assoc.
Qed.

Lemma recent_after_add_messages c now now' id m ms limit c' :
  add_messages c now id (m :: ms) = Ok c' →
  get_recent_messages c' now' id limit
  = if bool_decide (now' ≤ now + hours 4)
    then Ok (Some (slice_to limit (take 50 (rev (map JDict (m :: ms)) ++ window c id))))
    else Ok None.
Proof.
  intros [c0 ->]%add_messages_cons. unfold get_recent_messages. rewrite live_store.
  rewrite decide_True by done. by case_bool_decide.
Qed.

(** X5: after [add_message] was called for a non-empty list of messages,
    [get_recent_messages] returns, for four hours from the last call, the 50
    newest entries of the window, newest first, cut at the limit; the
    entries the window held before come after the new ones, expired or
    not. *)
Theorem sliding_window_newest_first c now now' id m ms limit c' :
  add_messages c now id (m :: ms) = Ok c' →
  get_recent_messages c' now' id limit
  = if bool_decide (now' ≤ now + hours 4)
    then Ok (Some (slice_to limit (take 50 (rev (map JDict (m :: ms)) ++ window c id))))
    else Ok None.
Proof. apply recent_after_add_messages. Qed.

Lemma slice_to_head {A} limit (a : A) l :
  0 < limit → ∃ rest, slice_to limit (take 50 (a :: l)) = a :: rest.
Proof.
  intros Hl. unfold slice_to. rewrite (proj2 (Z.leb_le 0 limit)) by lia.
  destruct (Z.to_nat limit) as [|n] eqn:E; [lia|]. simpl. eauto.
Qed.

Lemma recent_after_set_conversation c now now' id data id' limit :
  get_recent_messages (set_conversation c now id data) now' id' limit
  = get_recent_messages c now' id' limit.
Proof.
  unfold get_recent_messages, set_conversation. rewrite live_store.
  by rewrite decide_False by apply conv_key_not_messages.
Qed.

(** X6: snapshots, message windows and classifications do not interfere.
    Each of [set_conversation], [add_message] and [cache_classification]
    leaves what is read for the two other kinds unchanged, and what is read
    for another conversation or hash of its own kind unchanged. *)
Theorem cache_kinds_do_not_interfere c now now' :
  (∀ id data id' limit h,
     get_recent_messages (set_conversation c now id data) now' id' limit
     = get_recent_messages c now' id' limit
     ∧ get_cached_classification (set_conversation c now id data) now' h
       = get_cached_classification c now' h
     ∧ (id' ≠ id →
        get_conversation (set_conversation c now id data) now' id'
        = get_conversation c now' id'))
  ∧ (∀ id message c' id' limit h,
     add_message c now id message = Ok c' →
     get_conversation c' now' id' = get_conversation c now' id'
     ∧ get_cached_classification c' now' h = get_cached_classification c now' h
     ∧ (id' ≠ id →
        get_recent_messages c' now' id' limit = get_recent_messages c now' id' limit))
  ∧ (∀ h classification id limit h',
     get_conversation (cache_classification c now h classification) now' id
     = get_conversation c now' id
     ∧ get_recent_messages (cache_classification c now h classification) now' id limit
       = get_recent_messages c now' id limit
     ∧ (h' ≠ h →
        get_cached_classification (cache_classification c now h classification) now' h'
        = get_cached_classification c now' h')).
Proof.
  unfold get_conversation, get_recent_messages, get_cached_classification,
    set_conversation, cache_classification.
  split; [|split].
  - intros id data id' limit h. rewrite !live_store.
    rewrite (decide_False (P := conv_key id = messages_key id'))
      by apply conv_key_not_messages.
    rewrite (decide_False (P := conv_key id = classification_key h))
      by apply conv_key_not_classification.
    split; [done|]. split; [done|]. intros Hne.
    rewrite decide_False; [done|]. by intros ?%conv_key_inj.
  - intros id message c' id' limit h ->%add_message_window. rewrite !live_store.
    rewrite (decide_False (P := messages_key id = conv_key id'))
      by (intros H; symmetry in H; by apply conv_key_not_messages in H).
    rewrite (decide_False (P := messages_key id = classification_key h))
      by (intros H; symmetry in H; by apply classification_key_not_messages in H).
    split; [done|]. split; [done|]. intros Hne.
    rewrite decide_False; [done|]. by intros ?%messages_key_inj.
  - intros h classification id limit h'. rewrite !live_store.
    rewrite (decide_False (P := classification_key h = conv_key id))
      by (intros H; symmetry in H; by apply conv_key_not_classification in H).
    rewrite (decide_False (P := classification_key h = messages_key id))
      by apply classification_key_not_messages.
    split; [done|]. split; [done|]. intros Hne.
    rewrite decide_False; [done|]. by intros ?%classification_key_inj.
Qed.

End cache_reads.


(** ** What a session may change *)

Create HintDb frame.

Lemma leaves_db_ret {A} (a : A) : leaves_db (mret a).
Proof. by intros s. Qed.

Lemma leaves_tx_ret {A} (a : A) : leaves_tx (mret a).
Proof. by intros s. Qed.

Lemma leaves_db_bind {A B} (m : M A) (f : A → M B) :
  leaves_db m → (∀ a, leaves_db (f a)) → leaves_db (m ≫= f).
Proof.
  intros Hm Hf s. unfold mbind, M_bind. specialize (Hm s).
  destruct (m s) as [[a|e] s1]; simpl in *; [|done]. by rewrite Hf.
Qed.

Lemma leaves_tx_bind {A B} (m : M A) (f : A → M B) :
  leaves_tx m → (∀ a, leaves_tx (f a)) → leaves_tx (m ≫= f).
Proof.
  intros Hm Hf s. unfold mbind, M_bind. specialize (Hm s).
  destruct (m s) as [[a|e] s1]; simpl in *; [|done]. by rewrite Hf.
Qed.

Lemma leaves_db_raise {A} e : leaves_db (@raise A e).
Proof. by intros s. Qed.

Lemma leaves_tx_raise {A} e : leaves_tx (@raise A e).
Proof. by intros s. Qed.

Lemma leaves_db_get_state : leaves_db get_state.
Proof. by intros s. Qed.

Lemma leaves_tx_get_state : leaves_tx get_state.
Proof. by intros s. Qed.

Lemma leaves_db_round_trip env : leaves_db (round_trip env).
Proof. intros s. unfold round_trip. by destruct (db_fault _ _). Qed.

Lemma leaves_tx_round_trip env : leaves_tx (round_trip env).
Proof. intros s. unfold round_trip. by destruct (db_fault _ _). Qed.

Lemma leaves_db_uuid env : leaves_db (uuid env).
Proof. by intros s. Qed.

Lemma leaves_db_write_conversation c : leaves_db (write_conversation c).
Proof. by intros s. Qed.

Lemma leaves_db_add_usage u : leaves_db (add_usage u).
Proof. by intros s. Qed.

Lemma leaves_db_flush_conversation env c : leaves_db (flush_conversation env c).
Proof.
  intros s. unfold flush_conversation, mbind, M_bind, round_trip, get_state.
  destruct (db_fault _ _); [done|]. simpl. by destruct (has_conversation _ _).
Qed.

Lemma leaves_db_flush_message env m : leaves_db (flush_message env m).
Proof.
  intros s. unfold flush_message, mbind, M_bind, round_trip, get_state.
  destruct (db_fault _ _); [done|]. simpl. destruct (has_message _ _); [done|].
  by destruct (has_conversation _ _).
Qed.

Lemma leaves_db_cache_add_message env cid role content message :
  leaves_db (cache_add_message env cid role content message).
Proof. intros s. unfold cache_add_message. by destruct (Cache.add_message _ _ _ _). Qed.

Lemma leaves_tx_cache_add_message env cid role content message :
  leaves_tx (cache_add_message env cid role content message).
Proof. intros s. unfold cache_add_message. by destruct (Cache.add_message _ _ _ _). Qed.

Lemma leaves_db_cache_set_conversation env cid context :
  leaves_db (cache_set_conversation env cid context).
Proof. by intros s. Qed.

Lemma leaves_tx_cache_set_conversation env cid context :
  leaves_tx (cache_set_conversation env cid context).
Proof. by intros s. Qed.

Lemma leaves_db_cache_invalidate_conversation cid :
  leaves_db (cache_invalidate_conversation cid).
Proof. by intros s. Qed.

Lemma leaves_db_foldr {A} (f : A → M unit) (l : list A) :
  (∀ a, leaves_db (f a)) →
  leaves_db (foldr (λ a (rest : M unit), f a ;; rest) (mret tt) l).
Proof.
  intros Hf. induction l as [|a l IH]; simpl; [apply leaves_db_ret|].
  apply leaves_db_bind; [apply Hf|by intros _].
Qed.

Lemma leaves_tx_foldr {A} (f : A → M unit) (l : list A) :
  (∀ a, leaves_tx (f a)) →
  leaves_tx (foldr (λ a (rest : M unit), f a ;; rest) (mret tt) l).
Proof.
  intros Hf. induction l as [|a l IH]; simpl; [apply leaves_tx_ret|].
  apply leaves_tx_bind; [apply Hf|by intros _].
Qed.

(** Leaving the block commits the session's rows, or restores the committed
    ones. *)
Lemma get_session_rolls_back {A} env (body : M A) :
  leaves_db body → rolls_back (get_session env body).
Proof.
  intros Hb s. unfold get_session. specialize (Hb (set_tx (db s) s)).
  destruct (body _) as [[a|e] s1]; simpl in *; [|done].
  unfold round_trip. by destruct (db_fault _ _).
Qed.

Lemma get_session_read_only {A} env (body : M A) :
  leaves_db body → leaves_tx body → leaves_db (get_session env body).
Proof.
  intros Hb Ht s. unfold get_session.
  specialize (Hb (set_tx (db s) s)). specialize (Ht (set_tx (db s) s)).
  destruct (body _) as [[a|e] s1]; simpl in *; [|done].
  unfold round_trip. by destruct (db_fault _ _).
Qed.

Lemma rolls_back_leaves_db {A} (m : M A) : leaves_db m → rolls_back m.
Proof. intros Hm s. specialize (Hm s). by destruct (m s) as [[a|e] s1]. Qed.

#[local] Hint Resolve leaves_db_ret leaves_tx_ret leaves_db_raise leaves_tx_raise
  leaves_db_get_state leaves_tx_get_state leaves_db_round_trip leaves_tx_round_trip
  leaves_db_uuid leaves_db_write_conversation leaves_db_add_usage
  leaves_db_flush_conversation leaves_db_flush_message leaves_db_cache_add_message
  leaves_tx_cache_add_message leaves_db_cache_set_conversation
  leaves_tx_cache_set_conversation leaves_db_cache_invalidate_conversation : frame.

Ltac frame_step :=
  first
    [ apply leaves_db_bind
    | apply leaves_tx_bind
    | apply leaves_db_foldr
    | apply leaves_tx_foldr
    | progress intros
    | progress eauto with frame
    | match goal with
      | |- leaves_db (match ?x with _ => _ end) => destruct x
      | |- leaves_db (if ?x then _ else _) => destruct x
      | |- leaves_tx (match ?x with _ => _ end) => destruct x
      | |- leaves_tx (if ?x then _ else _) => destruct x
      end ].

Lemma leaves_db__add_message env cid role content md :
  leaves_db (_add_message env cid role content md).
Proof. unfold _add_message. repeat frame_step. Qed.

Lemma leaves_db__track_kb_usage env cid articles :
  leaves_db (_track_kb_usage env cid articles).
Proof. unfold _track_kb_usage, track_article. repeat frame_step. Qed.

Lemma leaves_db__cache_conversation env c : leaves_db (_cache_conversation env c).
Proof. unfold _cache_conversation. repeat frame_step. Qed.

#[local] Hint Resolve leaves_db__add_message leaves_db__track_kb_usage
  leaves_db__cache_conversation : frame.

Ltac session_body := repeat frame_step.

(** X7: every operation of the facade that raises leaves the committed rows
    as they were before the call. *)
Theorem facade_failure_rolls_back env :
  (∀ customer message context,
     rolls_back (start_or_get_conversation env customer message context))
  ∧ (∀ cid user_message agent_response metadata,
     rolls_back (add_interaction env cid user_message agent_response metadata))
  ∧ (∀ cid status agent, rolls_back (update_conversation_status env cid status agent))
  ∧ (∀ cid limit, rolls_back (get_conversation_history env cid limit))
  ∧ (∀ cid, rolls_back (get_conversation_context env cid))
  ∧ (∀ customer limit, rolls_back (get_customer_conversation_history env customer limit)).
Proof.
  split; [|split; [|split; [|split; [|split]]]]; intros.
  - apply get_session_rolls_back. session_body.
  - apply get_session_rolls_back. session_body.
  - apply get_session_rolls_back. session_body.
  - apply rolls_back_leaves_db. unfold get_conversation_history.
    apply leaves_db_bind; [auto with frame|]. intros s0.
    destruct (Cache.get_recent_messages _ _ _ _) as [[[|m l]|]|]; auto with frame;
      apply get_session_read_only; session_body.
  - apply rolls_back_leaves_db. unfold get_conversation_context, context_from_database.
    apply leaves_db_bind; [auto with frame|]. intros s0.
    destruct (Cache.get_conversation _ _ _) as [v|]; [destruct (entry_truthy v)|];
      auto with frame; apply get_session_read_only; session_body.
  - apply get_session_rolls_back. session_body.
Qed.

(** X8: the three read operations never change the committed rows, whether
    they return or raise. *)
Theorem reads_leave_database env s :
  (∀ cid limit, db (snd (get_conversation_history env cid limit s)) = db s)
  ∧ (∀ cid, db (snd (get_conversation_context env cid s)) = db s)
  ∧ (∀ customer limit,
       db (snd (get_customer_conversation_history env customer limit s)) = db s).
Proof.
  split; [|split]; intros.
  - revert s. change (leaves_db (get_conversation_history env cid limit)).
    unfold get_conversation_history.
    apply leaves_db_bind; [auto with frame|]. intros s0.
    destruct (Cache.get_recent_messages _ _ _ _) as [[[|m l]|]|]; auto with frame;
      apply get_session_read_only; session_body.
  - revert s. change (leaves_db (get_conversation_context env cid)).
    unfold get_conversation_context, context_from_database.
    apply leaves_db_bind; [auto with frame|]. intros s0.
    destruct (Cache.get_conversation _ _ _) as [v|]; [destruct (entry_truthy v)|];
      auto with frame; apply get_session_read_only; session_body.
  - revert s. change (leaves_db (get_customer_conversation_history env customer limit)).
    apply get_session_read_only; session_body.
Qed.

(** ** What the writes leave behind *)

Lemma interaction_update_updated_at env metadata c c' :
  interaction_update env metadata c = Ok c' → ConversationDB.updated_at c' = now env.
Proof.
  unfold interaction_update.
  destruct (given metadata && dict_has (or_empty metadata) "classification").
  - destruct (append_history _ _); [|done].
    destruct (dict_get _ _ _); by intros [= <-].
  - by intros [= <-].
Qed.

Lemma interaction_update_status env metadata c c' :
  interaction_update env metadata c = Ok c' →
  ConversationDB.status c' = ConversationDB.status c.
Proof.
  unfold interaction_update.
  destruct (given metadata && dict_has (or_empty metadata) "classification").
  - destruct (append_history _ _); [|done].
    destruct (dict_get _ _ _); by intros [= <-].
  - by intros [= <-].
Qed.

(** The object in memory after a classification dict was applied. *)
Lemma interaction_update_classified env metadata classification c c' :
  interaction_update env (Some metadata) c = Ok c' →
  dict_lookup metadata "classification" = Some (JDict classification) →
  ConversationDB.category c' = dict_get classification "category" JNone
  ∧ ConversationDB.priority c' = dict_get classification "priority" JNone
  ∧ ConversationDB.escalated c'
    = dict_get classification "requires_human_escalation" (JBool false)
  ∧ ∃ history,
      ConversationDB.classification_history c'
      = JList (history
               ++ [JDict [("timestamp", JIso (now env));
                          ("classification", JDict classification)]])
      ∧ (if truthy (ConversationDB.classification_history c)
         then ConversationDB.classification_history c = JList history
         else history = []).
Proof.
  intros Hupd Hcl. revert Hupd. unfold interaction_update.
  assert (given (Some metadata) = true) as -> by (by destruct metadata).
  unfold or_empty, dict_has, dict_get. rewrite Hcl. simpl.
  unfold append_history.
  destruct (truthy (ConversationDB.classification_history c)) eqn:Ht.
  - destruct (ConversationDB.classification_history c) as [| | | | | |l|] eqn:Hh; try done.
    intros [= <-]. simpl. unfold dict_get. repeat split; try done. by exists l.
  - intros [= <-]. simpl. unfold dict_get. repeat split; try done. by exists [].
Qed.

Lemma find_flushed s s' cid c c' env metadata :
  find_conversation (db s) cid = Some c →
  interaction_update env metadata c = Ok c' →
  conversations (db s') = replace_conversation (flushed c c') (conversations (db s)) →
  find_conversation (db s') cid = Some (flushed c c').
Proof.
  intros Hc Hupd Hconv. unfold find_conversation in *. rewrite Hconv.
  apply (find_replace_conversation _ _ c); [done|]. simpl.
  rewrite (interaction_update_id _ _ _ _ Hupd). by eapply find_conversation_id.
Qed.

Lemma add_interaction_returns env cid user_message agent_response metadata s s' :
  add_interaction env cid user_message agent_response metadata s = (Ok tt, s') →
  ∃ c c' c1 c2,
    find_conversation (db s) cid = Some c
    ∧ interaction_update env metadata c = Ok c'
    ∧ Cache.add_message (cache s) (now env) cid
        (message_dict "user" user_message (now env) []) = Ok c1
    ∧ Cache.add_message c1 (now env) cid
        (message_dict "assistant" agent_response (now env) (or_empty metadata)) = Ok c2
    ∧ cache s' = Cache.set_conversation c2 (now env) cid (cached_snapshot c')
    ∧ conversations (db s') = replace_conversation (flushed c c') (conversations (db s))
    ∧ messages (db s')
      = messages (db s)
        ++ [new_message env cid "user" user_message None (uuid4 env (uuids_drawn s));
            new_message env cid "assistant" agent_response metadata
              (uuid4 env (S (uuids_drawn s)))].
Proof.
  unfold add_interaction, get_session, mbind, M_bind.
  rewrite _add_message_eq; cbv zeta; simpl.
  destruct (db_fault env (round_trips s)); [done|].
  destruct (has_message _ _); [done|].
  destruct (has_conversation _ _) eqn:Hhas; simpl; [|done].
  destruct (Cache.add_message _ _ _ _) as [c1|] eqn:Hc1; [|done].
  rewrite _add_message_eq; cbv zeta; simpl.
  destruct (db_fault env (S (round_trips s))); [done|].
  destruct (has_message _ _); [done|].
  unfold has_conversation in *; simpl in *; rewrite Hhas; simpl.
  destruct (Cache.add_message c1 _ _ _) as [c2|] eqn:Hc2; [|done].
  unfold round_trip, get_state; simpl.
  destruct (db_fault env (S (S (round_trips s)))); [done|].
  simpl.
  apply (has_conversation_find (db s)) in Hhas as [c Hc].
  unfold find_conversation in *; simpl in *. rewrite Hc.
  destruct (interaction_update env metadata c) as [c'|] eqn:Hupd; [|done].
  unfold write_conversation, modify; simpl.
  match goal with |- context [(if ?b then ?m else mret tt) ?st] =>
    assert (same_but_usages st (snd ((if b then m else mret tt) st))) as Hframe
      by (destruct b; [apply _track_kb_usage_frame|done]);
    destruct ((if b then m else mret tt) st) as [[[]|e] s3]
  end; destruct Hframe as (Hdb & Hcache & Htrace & Hrt & Hconv & Hmsg); simpl in *; [|done].
  unfold _cache_conversation, cache_set_conversation, modify; simpl.
  rewrite Hrt.
  destruct (db_fault env (S (S (S (round_trips s))))); simpl; [done|].
  intros [= <-]; simpl. rewrite Hconv, Hmsg, Hcache, <- app_assoc.
  pose proof (interaction_update_id _ _ _ _ Hupd) as Hid.
  rewrite (find_conversation_id _ _ _ Hc) in Hid. rewrite Hid.
  eexists c, c', c1, c2. repeat split; try done.
  unfold cached_snapshot. by rewrite Hid.
Qed.

Lemma context_cache_hit env cid s d :
  Cache.get_conversation (cache s) (now env) cid = Some (Cache.EDict d) → d ≠ [] →
  get_conversation_context env cid s = (Ok (Some (Cache.EDict d)), s).
Proof.
  intros Hhit Hd. unfold get_conversation_context, mbind, M_bind, get_state.
  rewrite Hhit. simpl. by destruct d.
Qed.

Lemma interaction_update_unclassified env metadata c c' :
  (∀ md, metadata = Some md → dict_lookup md "classification" = None) →
  interaction_update env metadata c = Ok c' →
  ConversationDB.classification_history c' = ConversationDB.classification_history c.
Proof.
  intros Hno. unfold interaction_update.
  assert (given metadata && dict_has (or_empty metadata) "classification" = false) as ->.
  { destruct metadata as [md|]; [|done]. simpl. unfold dict_has.
    rewrite (Hno md eq_refl). apply andb_false_r. }
  by intros [= <-].
Qed.

(** X9: after [add_interaction] has returned, [get_conversation_context]
    called within four hours is answered from the cache and changes nothing.
    The snapshot agrees with the committed row on identifier, customer,
    status, priority, category, count, escalation flag, customer context and
    referenced articles.  It agrees on the classification history too when
    the call brought no classification or the history was empty or [None]
    before; otherwise the snapshot is one entry ahead of the row. *)
Theorem context_after_add_interaction env env' cid user_message agent_response metadata
    s s' :
  add_interaction env cid user_message agent_response metadata s = (Ok tt, s') →
  now env' ≤ now env + hours 4 →
  ∃ c c' d,
    find_conversation (db s) cid = Some c
    ∧ find_conversation (db s') cid = Some c'
    ∧ get_conversation_context env' cid s' = (Ok (Some (Cache.EDict d)), s')
    ∧ dict_lookup d "conversation_id" = Some (JStr cid)
    ∧ dict_lookup d "customer_id" = Some (JStr (ConversationDB.customer_id c'))
    ∧ dict_lookup d "status" = Some (JStr (ConversationDB.status c'))
    ∧ dict_lookup d "priority" = Some (ConversationDB.priority c')
    ∧ dict_lookup d "category" = Some (ConversationDB.category c')
    ∧ dict_lookup d "message_count" = Some (JInt (ConversationDB.message_count c'))
    ∧ dict_lookup d "escalated" = Some (ConversationDB.escalated c')
    ∧ dict_lookup d "customer_context" = Some (ConversationDB.customer_context c')
    ∧ dict_lookup d "articles_referenced"
      = Some (if truthy (ConversationDB.articles_referenced c')
              then ConversationDB.articles_referenced c' else JList [])
    ∧ (truthy (ConversationDB.classification_history c) = false
       ∨ (∀ md, metadata = Some md → dict_lookup md "classification" = None) →
       dict_lookup d "classification_history"
       = Some (if truthy (ConversationDB.classification_history c')
               then ConversationDB.classification_history c' else JList [])).
Proof.
  intros (c & c' & c1 & c2 & Hc & Hupd & _ & _ & Hcache & Hconv & _)%add_interaction_returns
    Httl.
  pose proof (interaction_update_id _ _ _ _ Hupd) as Hid.
  rewrite (find_conversation_id _ _ _ Hc) in Hid.
  exists c, (flushed c c'), (cached_snapshot c').
  split; [done|]. split; [by eapply find_flushed|]. split.
  { apply context_cache_hit; [|done].
    rewrite Hcache, snapshot_round_trip. by rewrite bool_decide_eq_true_2. }
  split; [unfold cached_snapshot; by rewrite Hid|].
  do 8 (split; [reflexivity|]).
  intros [Hfalsy|Hno].
  - cbn [flushed ConversationDB.classification_history]. rewrite Hfalsy. reflexivity.
  - cbn [flushed ConversationDB.classification_history].
    rewrite (interaction_update_unclassified _ _ _ _ Hno Hupd).
    change (dict_lookup (cached_snapshot c') "classification_history")
      with (Some (py_or (ConversationDB.classification_history c') (JList []))).
    rewrite (interaction_update_unclassified _ _ _ _ Hno Hupd). unfold py_or.
    by destruct (truthy (ConversationDB.classification_history c)) eqn:E; rewrite ?E.
Qed.

Lemma history_cache_hit env cid limit s m l :
  Cache.get_recent_messages (cache s) (now env) cid limit = Ok (Some (m :: l)) →
  get_conversation_history env cid limit s = (Ok (m :: l), s).
Proof.
  intros Hhit. unfold get_conversation_history, mbind, M_bind, get_state. by rewrite Hhit.
Qed.

(** X10: after [add_interaction] has returned, [get_conversation_history]
    called within four hours with a positive limit is answered from the
    cache, newest first: the assistant message, the user message, then what
    the window held before, at most 50 entries cut at the limit; the call
    changes nothing. *)
Theorem history_after_add_interaction env env' cid user_message agent_response metadata
    limit s s' :
  add_interaction env cid user_message agent_response metadata s = (Ok tt, s') →
  now env' ≤ now env + hours 4 → 0 < limit →
  get_conversation_history env' cid limit s'
  = (Ok (slice_to limit
           (take 50
              (JDict (message_dict "assistant" agent_response (now env) (or_empty metadata))
               :: JDict (message_dict "user" user_message (now env) [])
               :: Cache.window (cache s) cid))), s').
Proof.
  intros (c & c' & c1 & c2 & _ & _ & Hc1 & Hc2 & Hcache & _)%add_interaction_returns
    Httl Hlimit.
  assert (Cache.add_messages (cache s) (now env) cid
            [message_dict "user" user_message (now env) [];
             message_dict "assistant" agent_response (now env) (or_empty metadata)]
          = Ok c2) as Hpush by (simpl; by rewrite Hc1, Hc2).
  destruct (slice_to_head limit
              (JDict (message_dict "assistant" agent_response (now env) (or_empty metadata)))
              (JDict (message_dict "user" user_message (now env) [])
               :: Cache.window (cache s) cid) Hlimit) as [rest Hrest].
  rewrite Hrest. apply history_cache_hit.
  rewrite Hcache, recent_after_set_conversation.
  rewrite (recent_after_add_messages _ (now env) _ _ _ _ _ _ Hpush).
  rewrite bool_decide_eq_true_2 by done. simpl rev. simpl app. by rewrite Hrest.
Qed.

Lemma start_or_get_conversation_returns env customer message context s id s' :
  start_or_get_conversation env customer message context s = (Ok id, s') →
  (∃ rc,
     latest_updated (List.filter (recent_active env customer) (conversations (db s)))
     = Some rc
     ∧ id = ConversationDB.conversation_id rc
     ∧ conversations (db s') = conversations (db s)
     ∧ messages (db s')
       = messages (db s) ++ [new_message env id "user" message None (uuid4 env (uuids_drawn s))]
     ∧ kb_usages (db s') = kb_usages (db s)
     ∧ Cache.add_message (cache s) (now env) id (message_dict "user" message (now env) [])
       = Ok (cache s'))
  ∨ (latest_updated (List.filter (recent_active env customer) (conversations (db s))) = None
     ∧ id = uuid4 env (uuids_drawn s)
     ∧ has_conversation (db s) id = false
     ∧ conversations (db s')
       = conversations (db s) ++ [new_conversation env customer context id]
     ∧ messages (db s')
       = messages (db s)
         ++ [new_message env id "user" message None (uuid4 env (S (uuids_drawn s)))]
     ∧ kb_usages (db s') = kb_usages (db s)
     ∧ ∃ c1,
         Cache.add_message (cache s) (now env) id (message_dict "user" message (now env) [])
         = Ok c1
         ∧ cache s'
           = Cache.set_conversation c1 (now env) id
               (cached_snapshot (new_conversation env customer context id))).
Proof.
  unfold start_or_get_conversation, get_session, mbind, M_bind, round_trip, get_state; simpl.
  destruct (db_fault env (round_trips s)); [done|]. simpl.
  destruct (latest_updated _) as [rc|] eqn:Hq.
  - rewrite _add_message_eq; cbv zeta; simpl.
    destruct (db_fault env (S (round_trips s))); [done|].
    destruct (has_message _ _); [done|].
    destruct (has_conversation _ _); simpl; [|done].
    destruct (Cache.add_message _ _ _ _) as [c1|] eqn:Hc1; [|done]. simpl.
    destruct (db_fault env (S (S (round_trips s)))); [done|].
    intros [= <- <-]. left. exists rc. by repeat split.
  - unfold uuid, flush_conversation, mbind, M_bind, round_trip, get_state, raise, modify;
      simpl.
    destruct (db_fault env (S (round_trips s))); [done|]. simpl.
    destruct (has_conversation _ _) eqn:Hfresh; [done|]. simpl.
    rewrite _add_message_eq; cbv zeta; simpl.
    destruct (db_fault env (S (S (round_trips s)))); [done|].
    destruct (has_message _ _); [done|].
    unfold has_conversation at 1; simpl.
    rewrite existsb_snoc, bool_decide_eq_true_2, orb_true_r by done. simpl.
    destruct (Cache.add_message _ _ _ _) as [c1|] eqn:Hc1; [|done]. simpl.
    destruct (db_fault env (S (S (S (round_trips s))))); [done|].
    intros [= <- <-]. right. repeat split; try done. by exists c1.
Qed.

Lemma latest_updated_elem l c : latest_updated l = Some c → c ∈ l.
Proof. intros H. by apply latest_updated_Some in H as [? _]. Qed.

Lemma conversation_after_add_message c now now' id message c' id' :
  Cache.add_message c now id message = Ok c' →
  Cache.get_conversation c' now' id' = Cache.get_conversation c now' id'.
Proof.
  intros ->%add_message_window. unfold Cache.get_conversation. rewrite live_store.
  rewrite decide_False; [done|].
  intros H. symmetry in H. by apply conv_key_not_messages in H.
Qed.

(** X11: when [start_or_get_conversation] returns an identifier that was
    already in the database, it is that of a qualifying conversation of the
    customer, the table of conversations is unchanged (neither [updated_at]
    nor [message_count] moves), exactly one message row is added, and no
    cached snapshot changes. *)
Theorem continuation_leaves_conversation_row env customer message context s id s' :
  start_or_get_conversation env customer message context s = (Ok id, s') →
  has_conversation (db s) id = true →
  (∃ rc, rc ∈ conversations (db s) ∧ ConversationDB.conversation_id rc = id
         ∧ qualifies env customer rc)
  ∧ conversations (db s') = conversations (db s)
  ∧ messages (db s')
    = messages (db s) ++ [new_message env id "user" message None (uuid4 env (uuids_drawn s))]
  ∧ ∀ t id', Cache.get_conversation (cache s') t id' = Cache.get_conversation (cache s) t id'.
Proof.
  intros [(rc & Hrc & -> & Hconv & Hmsg & _ & Hcache)
         |(_ & _ & Hfresh & _)]%start_or_get_conversation_returns Hold;
    [|congruence].
  apply latest_updated_elem, elem_of_filter_bool in Hrc as [Hin Hq].
  split; [|split; [done|split; [done|]]].
  - exists rc. split; [done|]. split; [done|]. by apply recent_active_qualifies.
  - intros t id'. by eapply conversation_after_add_message.
Qed.

Lemma find_snoc_fresh l cid c :
  existsb (λ x, bool_decide (ConversationDB.conversation_id x = cid)) l = false →
  ConversationDB.conversation_id c = cid →
  find (λ x, bool_decide (ConversationDB.conversation_id x = cid)) (l ++ [c]) = Some c.
Proof.
  intros Hl Hc. induction l as [|x l IH]; simpl in *.
  - by rewrite bool_decide_eq_true_2.
  - apply orb_false_iff in Hl as [-> Hl]. auto.
Qed.

(** X12: when [start_or_get_conversation] returns a new identifier, the row
    committed under it is the new conversation (status [open], count 1), and
    [get_conversation_context] called within four hours returns the
    snapshot of that row from the cache, without changing anything. *)
Theorem context_after_creation env env' customer message context s id s' :
  start_or_get_conversation env customer message context s = (Ok id, s') →
  has_conversation (db s) id = false →
  now env' ≤ now env + hours 4 →
  find_conversation (db s') id = Some (new_conversation env customer context id)
  ∧ get_conversation_context env' id s'
    = (Ok (Some (Cache.EDict (cached_snapshot (new_conversation env customer context id)))),
       s').
Proof.
  intros [(rc & Hrc & -> & _)
         |(_ & _ & Hfresh & Hconv & _ & _ & c1 & _ & Hcache)]%start_or_get_conversation_returns
    Hnew Httl.
  { apply latest_updated_elem, elem_of_filter_bool in Hrc as [Hin _].
    apply has_conversation_elem in Hin. congruence. }
  split.
  - unfold find_conversation. rewrite Hconv. by apply find_snoc_fresh.
  - apply context_cache_hit; [|done].
    rewrite Hcache, snapshot_round_trip. by rewrite bool_decide_eq_true_2.
Qed.

(** ** Status changes and classifications *)

Lemma find_replace_other l cid' c' :
  ConversationDB.conversation_id c' ≠ cid' →
  find (λ x, bool_decide (ConversationDB.conversation_id x = cid'))
    (replace_conversation c' l)
  = find (λ x, bool_decide (ConversationDB.conversation_id x = cid')) l.
Proof.
  intros Hne. induction l as [|x l IH]; [done|]. simpl.
  case_bool_decide as Hx; simpl.
  - rewrite !bool_decide_eq_false_2; [done|congruence|done].
  - by rewrite IH.
Qed.

(** X13: a status update that returns writes the status and [updated_at];
    it sets [resolved_at] exactly when the status is [resolved]; when the
    status is [escalated] it sets the flag and overwrites the agent with the
    one given, [None] included; it keeps [message_count], the customer and
    [created_at], the messages and every other conversation; and it leaves
    neither snapshot nor message window of the conversation in the cache. *)
Theorem status_update_effect env cid status agent s s' c :
  update_conversation_status env cid status agent s = (Ok tt, s') →
  find_conversation (db s) cid = Some c →
  (∃ c',
     find_conversation (db s') cid = Some c'
     ∧ ConversationDB.status c' = status
     ∧ ConversationDB.updated_at c' = now env
     ∧ ConversationDB.resolved_at c'
       = (if bool_decide (status = "resolved") then Some (now env)
          else ConversationDB.resolved_at c)
     ∧ ConversationDB.escalated c'
       = (if bool_decide (status = "escalated") then JBool true
          else ConversationDB.escalated c)
     ∧ ConversationDB.human_agent_id c'
       = (if bool_decide (status = "escalated") then agent
          else ConversationDB.human_agent_id c)
     ∧ ConversationDB.message_count c' = ConversationDB.message_count c
     ∧ ConversationDB.customer_id c' = ConversationDB.customer_id c
     ∧ ConversationDB.created_at c' = ConversationDB.created_at c)
  ∧ messages (db s') = messages (db s)
  ∧ (∀ cid', cid' ≠ cid → find_conversation (db s') cid' = find_conversation (db s) cid')
  ∧ ∀ t limit,
      Cache.get_conversation (cache s') t cid = None
      ∧ Cache.get_recent_messages (cache s') t cid limit = Ok None.
Proof.
  intros Hrun Hc. revert Hrun.
  unfold update_conversation_status, get_session, mbind, M_bind, round_trip, get_state; simpl.
  destruct (db_fault env (round_trips s)); [done|]. simpl. rewrite Hc.
  unfold write_conversation, cache_invalidate_conversation, mbind, M_bind, modify; simpl.
  destruct (db_fault env (S (round_trips s))); [done|].
  intros [= <-]; simpl.
  pose proof (find_conversation_id _ _ _ Hc) as Hid.
  split; [|split; [done|split]].
  - exists (status_update env status agent c). split; [|by repeat split].
    by apply (find_replace_conversation _ _ c).
  - intros cid' Hne. unfold find_conversation; simpl.
    apply find_replace_other. simpl. congruence.
  - intros t limit.
    apply invalidated_reads.
Qed.


(** X14: [add_interaction] with a classification dict in its metadata
    commits category, priority and the escalation flag of the dict ([None],
    [None] and [False] where a key is missing), 2 more on the count and the
    new [updated_at], and leaves the status alone.  The entry it appends to
    the classification history is committed only when the history was empty
    or [None]: a history that already has entries is extended in place, the
    row keeps the old list, and only the cached snapshot shows the new
    entry. *)
Theorem interaction_applies_classification env cid user_message agent_response metadata
    classification s s' c :
  add_interaction env cid user_message agent_response (Some metadata) s = (Ok tt, s') →
  find_conversation (db s) cid = Some c →
  dict_lookup metadata "classification" = Some (JDict classification) →
  ∃ c' d,
    find_conversation (db s') cid = Some c'
    ∧ ConversationDB.category c' = dict_get classification "category" JNone
    ∧ ConversationDB.priority c' = dict_get classification "priority" JNone
    ∧ ConversationDB.escalated c'
      = dict_get classification "requires_human_escalation" (JBool false)
    ∧ ConversationDB.message_count c' = ConversationDB.message_count c + 2
    ∧ ConversationDB.updated_at c' = now env
    ∧ ConversationDB.status c' = ConversationDB.status c
    ∧ Cache.get_conversation (cache s') (now env) cid = Some (Cache.EDict d)
    ∧ (truthy (ConversationDB.classification_history c) = false →
         ConversationDB.classification_history c'
         = JList [JDict [("timestamp", JIso (now env));
                         ("classification", JDict classification)]]
         ∧ dict_lookup d "classification_history"
           = Some (JList [JDict [("timestamp", JIso (now env));
                                 ("classification", JDict classification)]]))
    ∧ (∀ first rest,
         ConversationDB.classification_history c = JList (first :: rest) →
         ConversationDB.classification_history c' = JList (first :: rest)
         ∧ dict_lookup d "classification_history"
           = Some (JList (first :: rest
                          ++ [JDict [("timestamp", JIso (now env));
                                     ("classification", JDict classification)]]))).
Proof.
  intros (c0 & c' & c1 & c2 & Hc0 & Hupd & _ & _ & Hcache & Hconv & _)%add_interaction_returns
    Hc Hcl.
  rewrite Hc in Hc0. injection Hc0 as <-.
  destruct (interaction_update_classified _ _ _ _ _ Hupd Hcl)
    as (Hcat & Hpri & Hesc & history & Hhist & Hold).
  exists (flushed c c'), (cached_snapshot c').
  split; [exact (find_flushed s s' cid c c' env (Some metadata) Hc Hupd Hconv)|].
  split; [exact Hcat|]. split; [exact Hpri|]. split; [exact Hesc|].
  split; [exact (interaction_update_count env (Some metadata) c c' Hupd)|].
  split; [exact (interaction_update_updated_at env (Some metadata) c c' Hupd)|].
  split; [exact (interaction_update_status env (Some metadata) c c' Hupd)|].
  split.
  { rewrite Hcache. unfold Cache.get_conversation, Cache.set_conversation.
    rewrite live_store, decide_True by done.
    rewrite bool_decide_eq_true_2; [done|]. unfold Cache.conversation_ttl, hours. lia. }
  split.
  - intros Hfalsy. rewrite Hfalsy in Hold. subst history. simpl. rewrite Hfalsy.
    split; [done|]. rewrite Hhist. reflexivity.
  - intros first rest Hlist. rewrite Hlist in Hold. simpl in Hold.
    injection Hold as <-. simpl. rewrite Hlist. simpl.
    split; [done|]. rewrite Hhist. reflexivity.
Qed.

(** X15: [add_interaction] for a conversation that is not in the database
    raises at the first insert, on the foreign key when the database
    answers, and leaves both database and cache unchanged. *)
Theorem add_interaction_unknown_conversation env cid user_message agent_response metadata s :
  has_conversation (db s) cid = false →
  ∃ e s',
    add_interaction env cid user_message agent_response metadata s = (Raise e, s')
    ∧ e = (if db_fault env (round_trips s) then OperationalError else IntegrityError)
    ∧ db s' = db s
    ∧ cache s' = cache s.
Proof.
  intros Hno. unfold add_interaction, get_session, mbind, M_bind.
  rewrite _add_message_eq; cbv zeta; simpl.
  destruct (db_fault env (round_trips s)); [by eexists _, _|].
  destruct (has_message _ _); [by eexists _, _|].
  rewrite Hno. simpl. by eexists _, _.
Qed.

(** ** Knowledge-base usage rows *)

Lemma track_articles_rows env cid (articles : list pydict) s :
  ∃ s',
    foldr (λ article (rest : M unit), track_article env cid article ;; rest) (mret tt)
      (map JDict articles) s = (Ok tt, s')
    ∧ kb_usages (tx s')
      = kb_usages (tx s)
        ++ imap (λ i a, new_usage env cid (uuid4 env (uuids_drawn s + i)%nat) a) articles
    ∧ uuids_drawn s' = (uuids_drawn s + length articles)%nat.
Proof.
  revert s. induction articles as [|a articles IH]; intros s; simpl.
  - exists s. rewrite app_nil_r. split; [done|]. split; [done|lia].
  - destruct (IH (snd (track_article env cid (JDict a) s))) as (s' & Hrun & Hk & Hu).
    exists s'. split; [exact Hrun|]. simpl in *. rewrite Hk, Hu. split; [|lia].
    rewrite <- app_assoc. simpl. do 2 f_equal.
    + unfold new_usage. by rewrite Nat.add_0_r.
    + apply imap_ext. intros i x _. simpl. do 2 f_equal. lia.
Qed.

(** X16: for a list of article dicts [_track_kb_usage] adds one usage row
    per article, in order, with [unknown], the empty title and score 0 where
    a key is missing, and touches nothing else. *)
Theorem track_kb_usage_rows env cid (articles : list pydict) s :
  ∃ s',
    _track_kb_usage env cid (JList (map JDict articles)) s = (Ok tt, s')
    ∧ kb_usages (tx s')
      = kb_usages (tx s)
        ++ imap (λ i a, new_usage env cid (uuid4 env (uuids_drawn s + i)%nat) a) articles
    ∧ conversations (tx s') = conversations (tx s)
    ∧ messages (tx s') = messages (tx s)
    ∧ db s' = db s
    ∧ cache s' = cache s.
Proof.
  destruct (track_articles_rows env cid articles s) as (s' & Hrun & Hk & _).
  exists s'. pose proof (_track_kb_usage_frame env cid (JList (map JDict articles)) s) as F.
  unfold _track_kb_usage in *. simpl in *. rewrite Hrun in *. simpl in F.
  destruct F as (? & ? & _ & _ & ? & ?). by repeat split.
Qed.

(** X17: [_track_kb_usage] raises [TypeError], and changes nothing, when it
    is given [None], a bool, an int or a float, none of which can be
    iterated.  It raises [AttributeError], and changes nothing, when it is
    given a str that is not empty, the text of a date, or a dict that is not
    empty: the loop runs, and its first item is a str, which has no [get].
    It raises [AttributeError] on a list that holds anything but dicts. *)
Theorem track_kb_usage_rejects env cid s :
  _track_kb_usage env cid JNone s = (Raise TypeError, s)
  ∧ (∀ b, _track_kb_usage env cid (JBool b) s = (Raise TypeError, s))
  ∧ (∀ n, _track_kb_usage env cid (JInt n) s = (Raise TypeError, s))
  ∧ (∀ x, _track_kb_usage env cid (JFloat x) s = (Raise TypeError, s))
  ∧ (∀ c text, _track_kb_usage env cid (JStr (String c text)) s = (Raise AttributeError, s))
  ∧ (∀ t, _track_kb_usage env cid (JIso t) s = (Raise AttributeError, s))
  ∧ (∀ k v d, _track_kb_usage env cid (JDict ((k, v) :: d)) s = (Raise AttributeError, s))
  ∧ (∀ items v, v ∈ items → (∀ d, v ≠ JDict d) →
        fst (_track_kb_usage env cid (JList items) s) = Raise AttributeError).
Proof.
  do 7 (split; [done|]).
  intros items v Hin Hv. unfold _track_kb_usage. simpl. revert s.
  induction items as [|x items IH]; intros s; [by apply elem_of_nil in Hin|].
  simpl. unfold mbind, M_bind.
  destruct x as [| | | | | | |d]; try done.
  apply elem_of_cons in Hin as [->|Hin]; [by destruct (Hv d)|].
  unfold track_article, mbind, M_bind, uuid, add_usage, modify. simpl. by apply IH.
Qed.

(** ** Reading from the database *)

Lemma insert_by_created_at_perm m l : insert_by_created_at m l ≡ₚ m :: l.
Proof.
  induction l as [|x l IH]; [done|]. simpl. case_bool_decide; [done|].
  rewrite IH. apply Permutation_swap.
Qed.

Lemma insert_by_created_at_sorted m l :
  StronglySorted older l → StronglySorted older (insert_by_created_at m l).
Proof.
  induction 1 as [|x l Hl IH Hx]; simpl.
  - repeat constructor.
  - case_bool_decide as Hm.
    + constructor; [by constructor|]. constructor; [done|].
      eapply Forall_impl; [exact Hx|]. unfold older. intros y Hy. lia.
    + constructor; [done|]. rewrite insert_by_created_at_perm.
      constructor; [unfold older; lia|done].
Qed.

Lemma order_by_created_at_perm l : order_by_created_at l ≡ₚ l.
Proof.
  induction l as [|x l IH]; [done|]. simpl.
  by rewrite insert_by_created_at_perm, IH.
Qed.

Lemma order_by_created_at_sorted l : StronglySorted older (order_by_created_at l).
Proof.
  induction l as [|x l IH]; simpl; [constructor|by apply insert_by_created_at_sorted].
Qed.

Lemma insert_by_created_at_desc_perm c l : insert_by_created_at_desc c l ≡ₚ c :: l.
Proof.
  induction l as [|x l IH]; [done|]. simpl. case_bool_decide; [done|].
  rewrite IH. apply Permutation_swap.
Qed.

Lemma insert_by_created_at_desc_sorted c l :
  StronglySorted newer l → StronglySorted newer (insert_by_created_at_desc c l).
Proof.
  induction 1 as [|x l Hl IH Hx]; simpl.
  - repeat constructor.
  - case_bool_decide as Hm.
    + constructor; [by constructor|]. constructor; [done|].
      eapply Forall_impl; [exact Hx|]. unfold newer. intros y Hy. lia.
    + constructor; [done|]. rewrite insert_by_created_at_desc_perm.
      constructor; [unfold newer; lia|done].
Qed.

Lemma order_by_created_at_desc_perm l : order_by_created_at_desc l ≡ₚ l.
Proof.
  induction l as [|x l IH]; [done|]. simpl.
  by rewrite insert_by_created_at_desc_perm, IH.
Qed.

Lemma order_by_created_at_desc_sorted l : StronglySorted newer (order_by_created_at_desc l).
Proof.
  induction l as [|x l IH]; simpl; [constructor|by apply insert_by_created_at_desc_sorted].
Qed.

Lemma backfill_returns env cid rows s s' :
  foldr (λ msg (rest : M unit),
      cache_add_message env cid (MessageDB.role msg) (MessageDB.content msg)
        (history_dict msg) ;;
      rest) (mret tt) rows s = (Ok tt, s') →
  Cache.add_messages (cache s) (now env) cid (map history_dict rows) = Ok (cache s')
  ∧ db s' = db s ∧ tx s' = tx s ∧ round_trips s' = round_trips s.
Proof.
  revert s. induction rows as [|m rows IH]; intros s; simpl.
  - by intros [= <-].
  - unfold mbind, M_bind, cache_add_message.
    destruct (Cache.add_message _ _ _ _) as [c1|]; [|done].
    intros H. apply IH in H. simpl in H. done.
Qed.

Lemma get_conversation_history_eq env cid limit s :
  get_conversation_history env cid limit s
  = match Cache.get_recent_messages (cache s) (now env) cid limit with
    | Raise e => (Raise e, s)
    | Ok (Some (m :: l)) => (Ok (m :: l), s)
    | Ok _ => history_from_database env cid limit s
    end.
Proof.
  unfold get_conversation_history, mbind at 1, M_bind at 1, get_state.
  by destruct (Cache.get_recent_messages _ _ _ _) as [[[|m l]|]|].
Qed.

Lemma history_from_database_returns env cid limit s h s' :
  history_from_database env cid limit s = (Ok h, s') →
  0 ≤ limit
  ∧ h = map (λ m, JDict (history_dict m))
          (take (Z.to_nat limit) (order_by_created_at (messages_of (db s) cid)))
  ∧ Cache.add_messages (cache s) (now env) cid
      (map history_dict
         (take (Z.to_nat limit) (order_by_created_at (messages_of (db s) cid))))
    = Ok (cache s')
  ∧ db s' = db s.
Proof.
  unfold history_from_database, get_session, mbind, M_bind, get_state, round_trip; simpl.
  destruct (db_fault env (round_trips s)); [done|].
  destruct (limit <? 0) eqn:Hl; [done|]. apply Z.ltb_ge in Hl.
  match goal with |- context [foldr ?f ?z ?l ?st] =>
    destruct (foldr f z l st) as [[[]|e] s1] eqn:Hfold end; [|done].
  apply backfill_returns in Hfold as (Hadd & Hdb & Htx & Hrt). simpl in *.
  destruct (db_fault env (round_trips s1)); [done|].
  intros [= <- <-]. simpl. rewrite Htx. by repeat split.
Qed.

Lemma history_cold_returns env cid limit s h s' :
  (∀ m l, Cache.get_recent_messages (cache s) (now env) cid limit ≠ Ok (Some (m :: l))) →
  get_conversation_history env cid limit s = (Ok h, s') →
  history_from_database env cid limit s = (Ok h, s').
Proof.
  intros Hmiss. rewrite get_conversation_history_eq.
  destruct (Cache.get_recent_messages _ _ _ _) as [[[|m l]|]|]; try done.
  by destruct (Hmiss m l).
Qed.

(** X18: when [get_conversation_history] is not answered by the cache and
    returns, its result lists the oldest [limit] messages of the
    conversation, oldest first, and the committed rows are unchanged. *)
Theorem history_from_database_oldest_first env cid limit s h s' :
  (∀ m l, Cache.get_recent_messages (cache s) (now env) cid limit ≠ Ok (Some (m :: l))) →
  get_conversation_history env cid limit s = (Ok h, s') →
  ∃ rows rest,
    h = map (λ m, JDict (history_dict m)) rows
    ∧ rows ++ rest ≡ₚ messages_of (db s) cid
    ∧ StronglySorted older (rows ++ rest)
    ∧ length rows = (Z.to_nat limit `min` length (messages_of (db s) cid))%nat
    ∧ db s' = db s.
Proof.
  intros Hmiss Hrun. apply (history_cold_returns _ _ _ _ _ _ Hmiss) in Hrun.
  apply history_from_database_returns in Hrun as (_ & -> & _ & Hdb).
  exists (take (Z.to_nat limit) (order_by_created_at (messages_of (db s) cid))),
         (drop (Z.to_nat limit) (order_by_created_at (messages_of (db s) cid))).
  rewrite take_drop. split; [done|].
  split; [apply order_by_created_at_perm|].
  split; [apply order_by_created_at_sorted|].
  split; [|done]. rewrite length_take. by rewrite order_by_created_at_perm.
Qed.

Lemma slice_to_all {A} limit (l : list A) :
  0 ≤ limit → (length l ≤ Z.to_nat limit)%nat → slice_to limit l = l.
Proof.
  intros Hl Hlen. unfold slice_to. rewrite (proj2 (Z.leb_le 0 limit)) by done.
  by apply take_ge.
Qed.

(** X19: when the cache has no window for a conversation and
    [get_conversation_history] returns a non-empty history from the
    database, the same call repeated within four hours returns the 50 last
    entries of that history in reverse order. *)
Theorem history_warm_after_backfill env env' cid limit s h s' :
  Cache.memory_cache (cache s) !! Cache.messages_key cid = None →
  get_conversation_history env cid limit s = (Ok h, s') →
  h ≠ [] →
  now env' ≤ now env + hours 4 →
  get_conversation_history env' cid limit s' = (Ok (take 50 (rev h)), s').
Proof.
  intros Hnone Hrun Hh Httl.
  assert (∀ m l,
    Cache.get_recent_messages (cache s) (now env) cid limit ≠ Ok (Some (m :: l))) as Hmiss.
  { intros m l. unfold Cache.get_recent_messages, Cache.live. by rewrite Hnone. }
  apply (history_cold_returns _ _ _ _ _ _ Hmiss) in Hrun.
  apply history_from_database_returns in Hrun as (Hlimit & -> & Hadd & _).
  assert (length (take (Z.to_nat limit) (order_by_created_at (messages_of (db s) cid)))
          ≤ Z.to_nat limit)%nat as Hlen by (rewrite length_take; lia).
  destruct (take (Z.to_nat limit) (order_by_created_at (messages_of (db s) cid)))
    as [|r rows]; [done|]. clear Hh.
  assert (Cache.window (cache s) cid = []) as Hw
    by (unfold Cache.window; by rewrite Hnone).
  assert (rev (map JDict (history_dict r :: map history_dict rows))
          = rev (map (λ m, JDict (history_dict m)) (r :: rows))) as Hrev
    by (simpl; by rewrite map_map).
  pose proof (recent_after_add_messages _ _ (now env') _ _ _ limit _ Hadd) as Hrecent.
  rewrite bool_decide_eq_true_2, Hw, app_nil_r in Hrecent by done.
  assert (Cache.get_recent_messages (cache s') (now env') cid limit
          = Ok (Some (slice_to limit
                        (take 50 (rev (map (λ m, JDict (history_dict m)) (r :: rows)))))))
    as Hwarm by (rewrite Hrecent; do 4 f_equal; exact Hrev).
  clear Hrecent Hrev. rename Hwarm into Hrecent.
  rewrite slice_to_all in Hrecent; [|done|].
  2:{ rewrite length_take, length_rev, length_map. lia. }
  destruct (take 50 (rev (map (λ m, JDict (history_dict m)) (r :: rows)))) as [|x l] eqn:Ht.
  { apply (f_equal length) in Ht. rewrite length_take, length_rev in Ht. simpl in Ht. lia. }
  by apply history_cache_hit.
Qed.

(** X20: when [get_customer_conversation_history] returns, its result
    lists the newest [limit] conversations of the customer, newest first,
    and neither database nor cache has changed. *)
Theorem customer_history_newest_first env customer limit s l s' :
  get_customer_conversation_history env customer limit s = (Ok l, s') →
  ∃ rows rest,
    l = map summary_dict rows
    ∧ rows ++ rest ≡ₚ conversations_of (db s) customer
    ∧ StronglySorted newer (rows ++ rest)
    ∧ length rows = (Z.to_nat limit `min` length (conversations_of (db s) customer))%nat
    ∧ db s' = db s
    ∧ cache s' = cache s.
Proof.
  unfold get_customer_conversation_history, get_session, mbind, M_bind, get_state,
    round_trip; simpl.
  destruct (db_fault env (round_trips s)); [done|].
  destruct (limit <? 0) eqn:Hl; [done|]. simpl.
  destruct (db_fault env (S (round_trips s))); [done|].
  intros [= <- <-]. simpl.
  exists (take (Z.to_nat limit) (order_by_created_at_desc (conversations_of (db s) customer))),
         (drop (Z.to_nat limit) (order_by_created_at_desc (conversations_of (db s) customer))).
  rewrite take_drop. split; [done|].
  split; [apply order_by_created_at_desc_perm|].
  split; [apply order_by_created_at_desc_sorted|].
  split; [|done]. rewrite length_take. by rewrite order_by_created_at_desc_perm.
Qed.

(** ** What the writes never touch *)

Lemma update_conversation_status_returns env cid status agent s s' :
  update_conversation_status env cid status agent s = (Ok tt, s') →
  (∃ c, find_conversation (db s) cid = Some c
        ∧ conversations (db s')
          = replace_conversation (status_update env status agent c) (conversations (db s))
        ∧ messages (db s') = messages (db s)
        ∧ cache s' = Cache.invalidate_conversation (cache s) cid)
  ∨ (find_conversation (db s) cid = None ∧ db s' = db s ∧ cache s' = cache s).
Proof.
  unfold update_conversation_status, get_session, mbind, M_bind, round_trip, get_state; simpl.
  destruct (db_fault env (round_trips s)); [done|]. simpl.
  destruct (find_conversation (db s) cid) as [c|] eqn:Hc; simpl.
  - unfold write_conversation, cache_invalidate_conversation, mbind, M_bind, modify; simpl.
    destruct (db_fault env (S (round_trips s))); [done|].
    intros [= <-]; simpl. left. by exists c.
  - destruct (db_fault env (S (round_trips s))); [done|].
    intros [= <-]; simpl. by right.
Qed.

Lemma find_snoc_found l cid c x :
  find (λ x, bool_decide (ConversationDB.conversation_id x = cid)) l = Some c →
  find (λ x, bool_decide (ConversationDB.conversation_id x = cid)) (l ++ [x]) = Some c.
Proof.
  induction l as [|y l IH]; [done|]. simpl. by destruct (bool_decide _).
Qed.

Lemma interaction_update_keeps env metadata c c' :
  interaction_update env metadata c = Ok c' →
  ConversationDB.customer_id c' = ConversationDB.customer_id c
  ∧ ConversationDB.created_at c' = ConversationDB.created_at c
  ∧ ConversationDB.customer_context c' = ConversationDB.customer_context c
  ∧ ConversationDB.articles_referenced c' = ConversationDB.articles_referenced c
  ∧ ConversationDB.status c' = ConversationDB.status c
  ∧ ConversationDB.human_agent_id c' = ConversationDB.human_agent_id c
  ∧ ConversationDB.resolved_at c' = ConversationDB.resolved_at c.
Proof.
  unfold interaction_update.
  destruct (given metadata && dict_has (or_empty metadata) "classification").
  - destruct (append_history _ _); [|done].
    destruct (dict_get _ _ _); by intros [= <-].
  - by intros [= <-].
Qed.

(** X23: no write of the facade changes the customer, [created_at],
    [customer_context] or [articles_referenced] of a stored conversation.
    [start_or_get_conversation] leaves every stored row as it is;
    [add_interaction] also keeps status, agent and [resolved_at];
    [update_conversation_status] also keeps count, category, priority and
    classification history. *)
Theorem writes_keep_creation_fields env s cid c :
  find_conversation (db s) cid = Some c →
  (∀ customer message context id s',
     start_or_get_conversation env customer message context s = (Ok id, s') →
     find_conversation (db s') cid = Some c)
  ∧ (∀ cid2 user_message agent_response metadata s',
     add_interaction env cid2 user_message agent_response metadata s = (Ok tt, s') →
     ∃ c', find_conversation (db s') cid = Some c'
           ∧ ConversationDB.customer_id c' = ConversationDB.customer_id c
           ∧ ConversationDB.created_at c' = ConversationDB.created_at c
           ∧ ConversationDB.customer_context c' = ConversationDB.customer_context c
           ∧ ConversationDB.articles_referenced c' = ConversationDB.articles_referenced c
           ∧ ConversationDB.status c' = ConversationDB.status c
           ∧ ConversationDB.human_agent_id c' = ConversationDB.human_agent_id c
           ∧ ConversationDB.resolved_at c' = ConversationDB.resolved_at c)
  ∧ (∀ cid2 status agent s',
     update_conversation_status env cid2 status agent s = (Ok tt, s') →
     ∃ c', find_conversation (db s') cid = Some c'
           ∧ ConversationDB.customer_id c' = ConversationDB.customer_id c
           ∧ ConversationDB.created_at c' = ConversationDB.created_at c
           ∧ ConversationDB.customer_context c' = ConversationDB.customer_context c
           ∧ ConversationDB.articles_referenced c' = ConversationDB.articles_referenced c
           ∧ ConversationDB.message_count c' = ConversationDB.message_count c
           ∧ ConversationDB.category c' = ConversationDB.category c
           ∧ ConversationDB.priority c' = ConversationDB.priority c
           ∧ ConversationDB.classification_history c'
             = ConversationDB.classification_history c).
Proof.
  intros Hc. split; [|split].
  - intros customer message context id s'
      [(rc & _ & _ & Hconv & _)|(_ & _ & _ & Hconv & _)]%start_or_get_conversation_returns;
      unfold find_conversation in *; rewrite Hconv; [done|by apply find_snoc_found].
  - intros cid2 um ar md s'
      (c0 & c' & _ & _ & Hc0 & Hupd & _ & _ & _ & Hconv & _)%add_interaction_returns.
    pose proof (interaction_update_id _ _ _ _ Hupd) as Hid.
    pose proof (find_conversation_id _ _ _ Hc0) as Hid0.
    unfold find_conversation in *. rewrite Hconv.
    destruct (decide (cid2 = cid)) as [->|Hne].
    + rewrite Hc in Hc0. injection Hc0 as <-. exists (flushed c c'). split.
      * apply (find_replace_conversation _ _ c); [done|simpl; congruence].
      * exact (interaction_update_keeps env md c c' Hupd).
    + exists c. split; [|done]. rewrite find_replace_other; [done|simpl; congruence].
  - intros cid2 status agent s'
      [(c0 & Hc0 & Hconv & _)|(_ & Hdb & _)]%update_conversation_status_returns.
    + pose proof (find_conversation_id _ _ _ Hc0) as Hid0.
      unfold find_conversation in *. rewrite Hconv.
      destruct (decide (cid2 = cid)) as [->|Hne].
      * rewrite Hc in Hc0. injection Hc0 as <-.
        exists (status_update env status agent c). split; [|done].
        by apply (find_replace_conversation _ _ c).
      * exists c. split; [|done]. rewrite find_replace_other; [done|simpl; congruence].
    + exists c. by rewrite Hdb.
Qed.

(** ** Instances *)

(** An instance of the theorem [expired_window_revived]. *)
Lemma expired_window_revived_witness :
  Cache.get_recent_messages Demo.three_messages (hours 5) "c1" 10 = Ok None
  ∧ ∃ c', Cache.add_message Demo.three_messages (hours 5) "c1" [("content", JStr "fourth")]
          = Ok c'
          ∧ Cache.get_recent_messages c' (hours 5) "c1" 10
            = Ok (Some (slice_to 10
                          (take 50
                             (JDict [("content", JStr "fourth")]
                              :: [JDict [("content", JStr "third")];
                                  JDict [("content", JStr "second")];
                                  JDict [("content", JStr "first")]])))).
Proof.
  apply (expired_window_revived Demo.three_messages (hours 5) "c1"
           [("content", JStr "fourth")]
           [JDict [("content", JStr "third")]; JDict [("content", JStr "second")];
            JDict [("content", JStr "first")]] 10);
    vm_compute; reflexivity.
Defined.

(** An instance of the theorem [sliding_window_newest_first]. *)
Lemma sliding_window_newest_first_witness :
  Cache.get_recent_messages Demo.three_messages 10 "c1" 2
  = if bool_decide (10 ≤ 0 + hours 4)
    then Ok (Some (slice_to 2
                     (take 50
                        (rev (map JDict [[("content", JStr "first")];
                                         [("content", JStr "second")];
                                         [("content", JStr "third")]])
                         ++ Cache.window Cache._init_memory_cache "c1"))))
    else Ok None.
Proof.
  apply (sliding_window_newest_first Cache._init_memory_cache 0 10 "c1"
           [("content", JStr "first")]
           [[("content", JStr "second")]; [("content", JStr "third")]] 2
           Demo.three_messages).
  vm_compute. reflexivity.
Defined.

(** An instance of the theorem [context_after_add_interaction]. *)
Lemma context_after_add_interaction_witness :
  ∃ c c' d,
    find_conversation (db Demo.opened) "u0" = Some c
    ∧ find_conversation (db Demo.answered) "u0" = Some c'
    ∧ get_conversation_context (Demo.at_time 2000) "u0" Demo.answered
      = (Ok (Some (Cache.EDict d)), Demo.answered)
    ∧ dict_lookup d "conversation_id" = Some (JStr "u0")
    ∧ dict_lookup d "customer_id" = Some (JStr (ConversationDB.customer_id c'))
    ∧ dict_lookup d "status" = Some (JStr (ConversationDB.status c'))
    ∧ dict_lookup d "priority" = Some (ConversationDB.priority c')
    ∧ dict_lookup d "category" = Some (ConversationDB.category c')
    ∧ dict_lookup d "message_count" = Some (JInt (ConversationDB.message_count c'))
    ∧ dict_lookup d "escalated" = Some (ConversationDB.escalated c')
    ∧ dict_lookup d "customer_context" = Some (ConversationDB.customer_context c')
    ∧ dict_lookup d "articles_referenced"
      = Some (if truthy (ConversationDB.articles_referenced c')
              then ConversationDB.articles_referenced c' else JList [])
    ∧ (truthy (ConversationDB.classification_history c) = false
       ∨ (∀ md, Some Demo.billing = Some md → dict_lookup md "classification" = None) →
       dict_lookup d "classification_history"
       = Some (if truthy (ConversationDB.classification_history c')
               then ConversationDB.classification_history c' else JList [])).
Proof.
  apply (context_after_add_interaction (Demo.at_time 1500) (Demo.at_time 2000) "u0"
           "and now?" "hi there" (Some Demo.billing) Demo.opened Demo.answered).
  - vm_compute. reflexivity.
  - vm_compute. discriminate.
Defined.

(** An instance of the theorem [history_after_add_interaction]. *)
Lemma history_after_add_interaction_witness :
  get_conversation_history (Demo.at_time 2000) "u0" 20 Demo.answered
  = (Ok (slice_to 20
           (take 50
              (JDict (message_dict "assistant" "hi there" 1500 (or_empty (Some Demo.billing)))
               :: JDict (message_dict "user" "and now?" 1500 [])
               :: Cache.window (cache Demo.opened) "u0"))), Demo.answered).
Proof.
  apply (history_after_add_interaction (Demo.at_time 1500) (Demo.at_time 2000) "u0"
           "and now?" "hi there" (Some Demo.billing) 20 Demo.opened Demo.answered).
  - vm_compute. reflexivity.
  - vm_compute. discriminate.
  - reflexivity.
Defined.

(** An instance of the theorem [continuation_leaves_conversation_row]. *)
Lemma continuation_leaves_conversation_row_witness :
  (∃ rc, rc ∈ conversations (db Demo.opened) ∧ ConversationDB.conversation_id rc = "u0"
         ∧ qualifies (Demo.at_time 2000) "cust" rc)
  ∧ conversations (db Demo.continued) = conversations (db Demo.opened)
  ∧ messages (db Demo.continued)
    = messages (db Demo.opened)
      ++ [new_message (Demo.at_time 2000) "u0" "user" "still there?" None
            (uuid4 (Demo.at_time 2000) (uuids_drawn Demo.opened))]
  ∧ ∀ t id', Cache.get_conversation (cache Demo.continued) t id'
             = Cache.get_conversation (cache Demo.opened) t id'.
Proof.
  apply (continuation_leaves_conversation_row (Demo.at_time 2000) "cust" "still there?" None
           Demo.opened "u0" Demo.continued).
  - vm_compute. reflexivity.
  - vm_compute. reflexivity.
Defined.

(** An instance of the theorem [context_after_creation]. *)
Lemma context_after_creation_witness :
  find_conversation (db Demo.opened) "u0"
  = Some (new_conversation (Demo.at_time 1000) "cust" None "u0")
  ∧ get_conversation_context (Demo.at_time 1500) "u0" Demo.opened
    = (Ok (Some (Cache.EDict
                   (cached_snapshot (new_conversation (Demo.at_time 1000) "cust" None "u0")))),
       Demo.opened).
Proof.
  apply (context_after_creation (Demo.at_time 1000) (Demo.at_time 1500) "cust" "hello" None
           Demo.start "u0" Demo.opened).
  - vm_compute. reflexivity.
  - vm_compute. reflexivity.
  - vm_compute. discriminate.
Defined.

(** An instance of the theorem [status_update_effect]. *)
Lemma status_update_effect_witness :
  (∃ c',
     find_conversation (db Demo.in_progress) "u0" = Some c'
     ∧ ConversationDB.status c' = "in_progress"
     ∧ ConversationDB.updated_at c' = now (Demo.at_time 3000)
     ∧ ConversationDB.resolved_at c'
       = (if bool_decide ("in_progress" = "resolved") then Some (now (Demo.at_time 3000))
          else ConversationDB.resolved_at
                 (new_conversation (Demo.at_time 1000) "cust" None "u0"))
     ∧ ConversationDB.escalated c'
       = (if bool_decide ("in_progress" = "escalated") then JBool true
          else ConversationDB.escalated
                 (new_conversation (Demo.at_time 1000) "cust" None "u0"))
     ∧ ConversationDB.human_agent_id c'
       = (if bool_decide ("in_progress" = "escalated") then None
          else ConversationDB.human_agent_id
                 (new_conversation (Demo.at_time 1000) "cust" None "u0"))
     ∧ ConversationDB.message_count c'
       = ConversationDB.message_count
           (new_conversation (Demo.at_time 1000) "cust" None "u0")
     ∧ ConversationDB.customer_id c'
       = ConversationDB.customer_id (new_conversation (Demo.at_time 1000) "cust" None "u0")
     ∧ ConversationDB.created_at c'
       = ConversationDB.created_at (new_conversation (Demo.at_time 1000) "cust" None "u0"))
  ∧ messages (db Demo.in_progress) = messages (db Demo.continued)
  ∧ (∀ cid', cid' ≠ "u0" →
       find_conversation (db Demo.in_progress) cid'
       = find_conversation (db Demo.continued) cid')
  ∧ ∀ t limit,
      Cache.get_conversation (cache Demo.in_progress) t "u0" = None
      ∧ Cache.get_recent_messages (cache Demo.in_progress) t "u0" limit = Ok None.
Proof.
  apply (status_update_effect (Demo.at_time 3000) "u0" "in_progress" None Demo.continued
           Demo.in_progress (new_conversation (Demo.at_time 1000) "cust" None "u0")).
  - vm_compute. reflexivity.
  - vm_compute. reflexivity.
Defined.

(** An instance of the theorem [interaction_applies_classification]: the
    second classified reply to [u0].  The row keeps the one entry of the
    first reply; the cached snapshot has two. *)
Lemma interaction_applies_classification_witness :
  ∃ c' d,
    find_conversation (db Demo.answered) "u0" = Some Demo.answered_row
    ∧ find_conversation (db Demo.answered_again) "u0" = Some c'
    ∧ ConversationDB.category c' = JStr "billing"
    ∧ ConversationDB.priority c' = JStr "high"
    ∧ ConversationDB.escalated c' = JBool false
    ∧ ConversationDB.message_count c' = 5
    ∧ ConversationDB.updated_at c' = 1600
    ∧ Cache.get_conversation (cache Demo.answered_again) 1600 "u0" = Some (Cache.EDict d)
    ∧ ConversationDB.classification_history c' = JList [Demo.entry 1500]
    ∧ dict_lookup d "classification_history"
      = Some (JList [Demo.entry 1500; Demo.entry 1600]).
Proof.
  destruct (interaction_applies_classification (Demo.at_time 1600) "u0" "thanks" "welcome"
              Demo.billing Demo.classification Demo.answered Demo.answered_again
              Demo.answered_row)
    as (c' & d & Hfind & Hcat & Hpri & Hesc & Hcount & Hupd & _ & Hhit & _ & Hahead);
    [vm_compute; reflexivity..|].
  destruct (Hahead (Demo.entry 1500) [] eq_refl) as [Hrow Hsnap].
  exists c', d.
  split; [vm_compute; reflexivity|].
  split; [exact Hfind|]. split; [exact Hcat|]. split; [exact Hpri|]. split; [exact Hesc|].
  split; [exact Hcount|]. split; [exact Hupd|]. split; [exact Hhit|].
  split; [exact Hrow|exact Hsnap].
Defined.

(** An instance of the theorem [add_interaction_unknown_conversation]. *)
Lemma add_interaction_unknown_conversation_witness :
  ∃ e s',
    add_interaction (Demo.at_time 1000) "missing" "hello" "hi" None Demo.start
    = (Raise e, s')
    ∧ e = (if db_fault (Demo.at_time 1000) (round_trips Demo.start)
           then OperationalError else IntegrityError)
    ∧ db s' = db Demo.start
    ∧ cache s' = cache Demo.start.
Proof.
  apply (add_interaction_unknown_conversation (Demo.at_time 1000) "missing" "hello" "hi" None
           Demo.start).
  reflexivity.
Defined.

(** An instance of the theorem [history_from_database_oldest_first]. *)
Lemma history_from_database_oldest_first_witness :
  ∃ rows rest,
    map (λ m, JDict (history_dict m)) (messages (db Demo.in_progress))
    = map (λ m, JDict (history_dict m)) rows
    ∧ rows ++ rest ≡ₚ messages_of (db Demo.in_progress) "u0"
    ∧ StronglySorted older (rows ++ rest)
    ∧ length rows = (Z.to_nat 20 `min` length (messages_of (db Demo.in_progress) "u0"))%nat
    ∧ db Demo.reread = db Demo.in_progress.
Proof.
  apply (history_from_database_oldest_first (Demo.at_time 4000) "u0" 20 Demo.in_progress
           (map (λ m, JDict (history_dict m)) (messages (db Demo.in_progress))) Demo.reread).
  - intros m l. vm_compute. discriminate.
  - vm_compute. reflexivity.
Defined.

(** An instance of the theorem [history_warm_after_backfill]. *)
Lemma history_warm_after_backfill_witness :
  get_conversation_history (Demo.at_time 5000) "u0" 20 Demo.reread
  = (Ok (take 50 (rev (map (λ m, JDict (history_dict m)) (messages (db Demo.in_progress))))),
     Demo.reread).
Proof.
  apply (history_warm_after_backfill (Demo.at_time 4000) (Demo.at_time 5000) "u0" 20
           Demo.in_progress
           (map (λ m, JDict (history_dict m)) (messages (db Demo.in_progress))) Demo.reread).
  - vm_compute. reflexivity.
  - vm_compute. reflexivity.
  - vm_compute. discriminate.
  - vm_compute. discriminate.
Defined.

(** An instance of the theorem [customer_history_newest_first]. *)
Lemma customer_history_newest_first_witness :
  ∃ rows rest,
    map summary_dict (conversations (db Demo.in_progress)) = map summary_dict rows
    ∧ rows ++ rest ≡ₚ conversations_of (db Demo.in_progress) "cust"
    ∧ StronglySorted newer (rows ++ rest)
    ∧ length rows
      = (Z.to_nat 10 `min` length (conversations_of (db Demo.in_progress) "cust"))%nat
    ∧ db (snd (get_customer_conversation_history (Demo.at_time 4000) "cust" 10
                 Demo.in_progress))
      = db Demo.in_progress
    ∧ cache (snd (get_customer_conversation_history (Demo.at_time 4000) "cust" 10
                    Demo.in_progress))
      = cache Demo.in_progress.
Proof.
  apply (customer_history_newest_first (Demo.at_time 4000) "cust" 10 Demo.in_progress
           (map summary_dict (conversations (db Demo.in_progress)))).
  vm_compute. reflexivity.
Defined.

Lemma opened_count_matches : count_matches (db Demo.opened) "u0".
Proof. intros c Hc. vm_compute in Hc. injection Hc as <-. reflexivity. Qed.

(** An instance of the theorem [add_interaction_keeps_count]. *)
Lemma add_interaction_keeps_count_witness : count_matches (db Demo.answered) "u0".
Proof.
  apply (add_interaction_keeps_count (Demo.at_time 1500) "u0" "and now?" "hi there"
           (Some Demo.billing) Demo.opened Demo.answered).
  - vm_compute. reflexivity.
  - apply opened_count_matches.
Defined.

(** An instance of the theorem [writes_keep_creation_fields]. *)
Lemma writes_keep_creation_fields_witness :
  (∀ customer message context id s',
     start_or_get_conversation (Demo.at_time 2000) customer message context Demo.opened
     = (Ok id, s') →
     find_conversation (db s') "u0"
     = Some (new_conversation (Demo.at_time 1000) "cust" None "u0"))
  ∧ (∀ cid2 user_message agent_response metadata s',
     add_interaction (Demo.at_time 2000) cid2 user_message agent_response metadata
       Demo.opened = (Ok tt, s') →
     ∃ c', find_conversation (db s') "u0" = Some c'
           ∧ ConversationDB.customer_id c' = "cust"
           ∧ ConversationDB.created_at c' = 1000
           ∧ ConversationDB.customer_context c' = JDict []
           ∧ ConversationDB.articles_referenced c' = JList []
           ∧ ConversationDB.status c' = "open"
           ∧ ConversationDB.human_agent_id c' = None
           ∧ ConversationDB.resolved_at c' = None)
  ∧ (∀ cid2 status agent s',
     update_conversation_status (Demo.at_time 2000) cid2 status agent Demo.opened
     = (Ok tt, s') →
     ∃ c', find_conversation (db s') "u0" = Some c'
           ∧ ConversationDB.customer_id c' = "cust"
           ∧ ConversationDB.created_at c' = 1000
           ∧ ConversationDB.customer_context c' = JDict []
           ∧ ConversationDB.articles_referenced c' = JList []
           ∧ ConversationDB.message_count c' = 1
           ∧ ConversationDB.category c' = JNone
           ∧ ConversationDB.priority c' = JNone
           ∧ ConversationDB.classification_history c' = JList []).
Proof.
  apply (writes_keep_creation_fields (Demo.at_time 2000) Demo.opened "u0"
           (new_conversation (Demo.at_time 1000) "cust" None "u0")).
  vm_compute. reflexivity.
Defined.

(** An instance of the theorem [facade_keeps_cache_reachable]. *)
Lemma facade_keeps_cache_reachable_witness : Cache.reachable (cache Demo.opened).
Proof.
  apply (proj1 (facade_keeps_cache_reachable (Demo.at_time 1000)) "cust" "hello" None
           Demo.start).
  apply Cache.reach_init.
Defined.
